(** * telebot: the RPC transport (caller.go) and the update poller (bot.go)

    A shallow embedding of the Go package [telebot] and the properties of
    its long-polling loop and of its one-shot RPC call.

    Conventions of the embedding
    - [int64] values are integers of [Z] inside [[-2^63, 2^63)]; Go's
      wrapping addition is written out ([add64]).
    - a Go pointer that may be nil is an [option]; a nil [interface{}] is
      [None].
    - [encoding/json], [net/url] and the HTTP client are outside the
      package: they are interfaces (type classes) of the development, and
      the network's answer is an input of every call.
    - channel sends, sleeps, remote calls and channel closes of the polling
      goroutine are recorded, in program order, in a trace of events. *)

From Stdlib Require Import ZArith List String Bool Lia SpecFloat.
Import ListNotations.

Local Open Scope string_scope.
Local Open Scope list_scope.
Local Open Scope Z_scope.

(* ===================================================================== *)
(** ** Machine integers *)
(* ===================================================================== *)

Definition MinInt64 : Z := - 2 ^ 63.
Definition MaxInt64 : Z := 2 ^ 63 - 1.

(** The values an [int64] variable can hold. *)
Definition int64 (z : Z) : Prop := MinInt64 <= z <= MaxInt64.

(** Reduction of an integer to its two's-complement [int64] value. *)
Definition wrap64 (z : Z) : Z := (z + 2 ^ 63) mod 2 ^ 64 - 2 ^ 63.

(** Go's [+] on [int64]: silent wrap-around on overflow. *)
Definition add64 (a b : Z) : Z := wrap64 (a + b).

(** [time.Duration] counts nanoseconds. *)
Definition Duration := Z.
Definition Second : Duration := 1000000000.
Definition Minute : Duration := 60 * Second.

Definition bytes := list Byte.byte.

(* ===================================================================== *)
(** ** Data model (types.go) *)
(* ===================================================================== *)

(** [type UpdateType string] and its constants. *)
Definition UpdateType := string.

Definition MessageUpdate : UpdateType := "message".
Definition EditedMessageUpdate : UpdateType := "edited_message".
Definition ChannelPostUpdate : UpdateType := "channel_post".
Definition EditedChannelPostUpdate : UpdateType := "edited_channel_post".
Definition InlineQueryUpdate : UpdateType := "inline_query".
Definition ChosenInlineResultUpdate : UpdateType := "chosen_inline_result".
Definition CallbackQueryUpdate : UpdateType := "callback_query".

(** [type User struct]. *)
Record User := {
  User_ID : Z;
  IsBot : bool;
  FirstName : string;
  LastName : string;
  Username : string;
  LanguageCode : string
}.

(** The four payload structs an update can point to.  The poller and
    [Update.Type] only ever test these pointers against nil, so the
    records keep the scalar fields and leave out the nested pointers. *)
Record Message := {
  Message_ID : Z;
  Message_Date : Z;
  Message_Text : string
}.

Record InlineQuery := {
  InlineQuery_ID : string;
  InlineQuery_Query : string;
  InlineQuery_Offset : string
}.

Record ChosenInlineResult := {
  ChosenInlineResult_ID : string;
  ChosenInlineResult_InlineMessageID : string;
  ChosenInlineResult_Query : string
}.

Record CallbackQuery := {
  CallbackQuery_ID : string;
  CallbackQuery_InlineMessageID : string;
  CallbackQuery_ChatInstance : string;
  CallbackQuery_Data : string
}.

(** [type Update struct]: an identifier and seven optional payloads. *)
Record Update := {
  Upd_ID : Z;
  Upd_Message : option Message;
  Upd_EditedMessage : option Message;
  Upd_ChannelPost : option Message;
  Upd_EditedChannelPost : option Message;
  Upd_InlineQuery : option InlineQuery;
  Upd_ChosenInlineResult : option ChosenInlineResult;
  Upd_CallbackQuery : option CallbackQuery
}.

(** [x != nil] for a pointer. *)
Definition notnil {A : Type} (p : option A) : bool :=
  match p with Some _ => true | None => false end.

(** [func (u *Update) Type() UpdateType]. *)
Definition Update_Type (u : Update) : UpdateType :=
  if notnil (Upd_Message u) then MessageUpdate
  else if notnil (Upd_EditedMessage u) then EditedMessageUpdate
  else if notnil (Upd_ChannelPost u) then ChannelPostUpdate
  else if notnil (Upd_EditedChannelPost u) then EditedChannelPostUpdate
  else if notnil (Upd_InlineQuery u) then InlineQueryUpdate
  else if notnil (Upd_ChosenInlineResult u) then ChosenInlineResultUpdate
  else if notnil (Upd_CallbackQuery u) then CallbackQueryUpdate
  else "".

(** The kind slots of an update in the order the specification lists them:
    each with the kind it stands for and whether it is populated. *)
Definition kind_slots (u : Update) : list (UpdateType * bool) :=
  [ ("message", notnil (Upd_Message u));
    ("edited_message", notnil (Upd_EditedMessage u));
    ("channel_post", notnil (Upd_ChannelPost u));
    ("edited_channel_post", notnil (Upd_EditedChannelPost u));
    ("inline_query", notnil (Upd_InlineQuery u));
    ("chosen_inline_result", notnil (Upd_ChosenInlineResult u));
    ("callback_query", notnil (Upd_CallbackQuery u)) ].

(** The kind of the first populated slot of a slot list, the empty string
    when none is populated. *)
Fixpoint first_populated (slots : list (UpdateType * bool)) : UpdateType :=
  match slots with
  | [] => ""
  | (k, true) :: _ => k
  | (_, false) :: rest => first_populated rest
  end.

(* ===================================================================== *)
(** ** Errors *)
(* ===================================================================== *)

(** [type Error struct]: an error declared by the remote API. *)
Record Error := {
  HTTPCode : Z;
  Description : string
}.

(** Go's [error] interface, as far as this package produces values of it:
    a [*Error] of its own, or an error value handed back by a library
    ([encoding/json], [net/url], [net/http]), kept by its message. *)
Inductive goerror : Type :=
| ApiError (e : Error)
| LibError (msg : string).

(** [func (e *Error) Error() string], extended to library errors. *)
Definition Error_Error (e : goerror) : string :=
  match e with
  | ApiError a => Description a
  | LibError m => m
  end.

(* ===================================================================== *)
(** ** The world outside the package *)
(* ===================================================================== *)

(** [json.Marshal] at a request type: the encoding, or a failure. *)
Class Marshaler (A : Type) := json_Marshal : A -> string + bytes.

(** [json.Unmarshal] (and [Decoder.Decode]) at a target type: it is given
    the input and the current contents of the target, and leaves the new
    contents of the target together with its error result. *)
Class Unmarshaler (A : Type) := json_Unmarshal : bytes -> A -> A * option string.

(** The payload type of a call made with a nil [request]: there is no
    payload, and nothing to marshal. *)
Definition NoRequest : Type := Empty_set.

#[export] Instance Marshaler_NoRequest : Marshaler NoRequest :=
  fun rq => match rq with end.

(** [url.Parse] as [http.NewRequest] uses it: [Some msg] when the URL is
    rejected. *)
Class URLParser := url_Parse : string -> option string.

(** [type Client struct] of [net/http], as far as the package sets it. *)
Record Client := {
  Client_Timeout : Duration
}.

(** An [http.Request] as [http.NewRequest] builds it. *)
Record Request := {
  Method : string;
  URL : string;
  Body : option bytes;
  Header : list (string * string)
}.

(** What the package reads of an [http.Response]. *)
Record Response := {
  StatusCode : Z;
  Response_Body : bytes
}.

(** The outcome of one [client.Do]: a transport failure or a response. *)
Definition Network := Client -> Request -> string + Response.

(** [Header.Set]: the key is bound to the single value given. *)
Definition Header_Set (h : list (string * string)) (k v : string)
  : list (string * string) :=
  (k, v) :: filter (fun kv => negb (String.eqb (fst kv) k)) h.

(** [Header.Get]: the first value bound to the key. *)
Fixpoint Header_Get (h : list (string * string)) (k : string) : option string :=
  match h with
  | [] => None
  | (k', v) :: rest => if String.eqb k' k then Some v else Header_Get rest k
  end.

(** [http.NewRequest(method, url, body)].  The two methods the package
    passes, GET and POST, are valid; the call fails when the URL does not
    parse.  The new request has an empty header. *)
Definition http_NewRequest `{URLParser} (method url : string)
    (body : option bytes) : string + Request :=
  match url_Parse url with
  | Some msg => inl msg
  | None => inr {| Method := method; URL := url; Body := body; Header := [] |}
  end.

(* ===================================================================== *)
(** ** A monad for calls that log, mutate a target and may fail *)
(* ===================================================================== *)

(** Computations over a state [S] that end in a value or in a Go error.
    The state survives a failure: what was sent before the failure stays
    sent. *)
Definition M (S X : Type) : Type := S -> (goerror + X) * S.

Definition ret {S X} (x : X) : M S X := fun s => (inr x, s).

Definition raise {S X} (e : goerror) : M S X := fun s => (inl e, s).

Definition bind {S X Y} (m : M S X) (k : X -> M S Y) : M S Y :=
  fun s =>
    match m s with
    | (inl e, s') => (inl e, s')
    | (inr x, s') => k x s'
    end.

Notation "x <- c1 ;; c2" := (bind c1 (fun x => c2))
  (at level 61, c1 at next level, right associativity).
Notation "' pat <- c1 ;; c2" :=
  (bind c1 (fun x => match x with pat => c2 end))
  (at level 61, pat pattern, c1 at next level, right associativity).

(** The result of a library function that reports failure by an error
    value: [if err != nil { return err }]. *)
Definition lib {S X} (r : string + X) : M S X :=
  match r with
  | inl msg => raise (LibError msg)
  | inr x => ret x
  end.

(* ===================================================================== *)
(** ** Transport (caller.go) *)
(* ===================================================================== *)

(** [type Caller struct]. *)
Record Caller := {
  prefix : string;
  client : Client;
  pollClient : Client
}.

(** [type outerResponse struct]: the envelope of every response. *)
Record outerResponse := {
  Ok : bool;
  Result : bytes;
  Outer_Description : string
}.

(** The zero value of [var outer outerResponse]. *)
Definition zero_outerResponse : outerResponse :=
  {| Ok := false; Result := []; Outer_Description := "" |}.

(** What one invocation of [do] does to the outside world, in order. *)
Inductive Effect : Type :=
| EfRPC (cl : Client) (name : string)       (* [do] is entered *)
| EfSend (cl : Client) (req : Request)      (* [client.Do(req)] *)
| EfEnvelope (code : Z) (outer : outerResponse)
                                            (* the envelope is decoded *)
| EfUnmarshal (raw : bytes).                (* [json.Unmarshal(outer.Result, response)] *)

(** The state [do] works on: the effects so far and the contents of the
    target [response] points to ([None] for a nil [response]). *)
Record World (Rs : Type) := {
  log : list Effect;
  target : option Rs
}.
Arguments log {Rs} _.
Arguments target {Rs} _.

Definition emit {Rs} (ef : Effect) : M (World Rs) unit :=
  fun w => (inr tt, {| log := log w ++ [ef]; target := target w |}).

Section Transport.
Context {UP : URLParser} {UO : Unmarshaler outerResponse}.
Context {Rq Rs : Type} {MRq : Marshaler Rq} {URs : Unmarshaler Rs}.

(** [res, err := client.Do(req)] against the network's answer [net]. *)
Definition client_Do (net : Network) (cl : Client) (req : Request)
  : M (World Rs) Response :=
  _ <- emit (EfSend cl req) ;;
  lib (net cl req).

(** [json.NewDecoder(res.Body).Decode(&outer)]. *)
Definition decode_outer (res : Response) : M (World Rs) outerResponse :=
  let '(outer, err) := json_Unmarshal (Response_Body res) zero_outerResponse in
  match err with
  | Some msg => raise (LibError msg)
  | None =>
      _ <- emit (EfEnvelope (StatusCode res) outer) ;;
      ret outer
  end.

(** [if response != nil { json.Unmarshal(outer.Result, response) }]. *)
Definition unmarshal_result (raw : bytes) : M (World Rs) unit :=
  fun w =>
    match target w with
    | None => (inr tt, w)
    | Some a =>
        let '(a', err) := json_Unmarshal raw a in
        let w' := {| log := log w ++ [EfUnmarshal raw]; target := Some a' |} in
        match err with
        | Some msg => (inl (LibError msg), w')
        | None => (inr tt, w')
        end
    end.

(** The end of [do], from "Check if telegram API return an error
    instead": what is made of a decoded envelope. *)
Definition Caller_interpret (res : Response) (outer : outerResponse)
  : M (World Rs) unit :=
  if negb (Ok outer) then
    if (String.length (Outer_Description outer) =? 0)%nat then
      raise (ApiError {| HTTPCode := StatusCode res;
                         Description := "undefined error" |})
    else
      raise (ApiError {| HTTPCode := StatusCode res;
                         Description := Outer_Description outer |})
  else
    unmarshal_result (Result outer).

(** [func (c *Caller) do(client, name, request, response) error].
    [request] is [None] for a nil interface; a nil pointer of a payload
    type stored in the interface is not nil, it is a payload. *)
Definition Caller_do (net : Network) (c : Caller) (cl : Client)
    (name : string) (request : option Rq) : M (World Rs) unit :=
  _ <- emit (EfRPC cl name) ;;
  '(method, input) <-
    match request with
    | Some rq =>
        buf <- lib (json_Marshal rq) ;;
        ret ("POST", Some buf)
    | None => ret ("GET", None)
    end ;;
  req <- lib (http_NewRequest method (prefix c ++ name) input) ;;
  let req :=
    if notnil request
    then {| Method := Method req; URL := URL req; Body := Body req;
            Header := Header_Set (Header req) "Content-Type" "application/json" |}
    else req in
  res <- client_Do net cl req ;;
  outer <- decode_outer res ;;
  Caller_interpret res outer.

(** [func (c *Caller) Call(name, request, response) error]. *)
Definition Caller_Call (net : Network) (c : Caller) :=
  Caller_do net c (client c).

(** [func (c *Caller) Poll(name, request, response) error]. *)
Definition Caller_Poll (net : Network) (c : Caller) :=
  Caller_do net c (pollClient c).

(** Running a call from a world: the error returned ([None] for nil) and
    the world left behind. *)
Definition run_from (m : M (World Rs) unit) (w0 : World Rs)
  : option goerror * World Rs :=
  match m w0 with
  | (inl e, w) => (Some e, w)
  | (inr _, w) => (None, w)
  end.

(** Running a call from a clean world whose target holds [response]. *)
Definition run_call (m : M (World Rs) unit) (response : option Rs)
  : option goerror * World Rs :=
  run_from m {| log := []; target := response |}.

End Transport.

(** [func NewCaller(endpoint, token string) *Caller]. *)
Definition NewCaller (endpoint token : string) : Caller :=
  {| prefix := endpoint ++ token ++ "/";
     client := {| Client_Timeout := 10 * Second |};
     pollClient := {| Client_Timeout := 5 * Minute |} |}.

(* ===================================================================== *)
(** ** The bot and its poller (bot.go) *)
(* ===================================================================== *)

Definition EndpointURL : string := "https://api.telegram.org/bot".
Definition DefaultBackoffPeriod : Duration := 5 * Second.
Definition DefaultPollTimeout : Z := 60.

(** [type Bot struct]. *)
Record Bot := {
  Self : option User;
  BackoffPeriod : Duration;
  caller : Caller
}.

(** [type GetUpdates struct]: the poll request; [Offset] is the cursor. *)
Record GetUpdates := {
  Offset : Z;
  Limit : Z;
  Timeout : Z;
  AllowedUpdates : list UpdateType
}.

(** [req.Timeout = t] and [req.Offset = o] on the shared request. *)
Definition set_Timeout (req : GetUpdates) (t : Z) : GetUpdates :=
  {| Offset := Offset req; Limit := Limit req; Timeout := t;
     AllowedUpdates := AllowedUpdates req |}.

Definition set_Offset (req : GetUpdates) (o : Z) : GetUpdates :=
  {| Offset := o; Limit := Limit req; Timeout := Timeout req;
     AllowedUpdates := AllowedUpdates req |}.

(** The zero value of [var me User]. *)
Definition zero_User : User :=
  {| User_ID := 0; IsBot := false; FirstName := ""; LastName := "";
     Username := ""; LanguageCode := "" |}.

(** A [context.Context] as the poller sees it: either its [Done] channel
    is nil and can never be received from ([context.Background]), or it
    is a channel that is closed on cancellation. *)
Inductive Context : Type :=
| Background
| Cancellable.

(** What the goroutine meets in one turn of its loop: whether the
    context's [Done] channel has been closed by then, and how the network
    answers a request made in this turn. *)
Record Turn := {
  done_closed : bool;
  net : Network
}.

(** [case <-done] is ready: the channel is not nil and is closed. *)
Definition done_ready (ctx : Context) (t : Turn) : bool :=
  match ctx with
  | Background => false
  | Cancellable => done_closed t
  end.

(** What the goroutine does that can be observed, in program order.  The
    channels are unbuffered: a send is recorded when a receiver has taken
    the value, and the traces below are those of a goroutine whose sends
    are all received. *)
Inductive Event : Type :=
| EvGetUpdates (req : GetUpdates) (upds : list (option Update))
               (err : option goerror)
      (* [b.GetUpdates(req)] with the request as it stands, and its results *)
| EvUpdate (upd : option Update)      (* [retupd <- upd] *)
| EvError (err : goerror)             (* [reterr <- err] *)
| EvSleep (d : Duration)              (* [time.Sleep(b.BackoffPeriod)] *)
| EvCloseUpdates                      (* [close(retupd)] *)
| EvCloseErrors                       (* [close(reterr)] *)
| EvPanic.                            (* nil pointer dereference *)

(** The goroutine is in its loop, has returned, or has panicked. *)
Inductive Status : Type :=
| Running
| Stopped
| Panicked.

(** The state carried between turns: the request the caller handed over
    (mutated in place) and where the goroutine stands. *)
Record Poller := {
  req : GetUpdates;
  status : Status
}.

Section Poller.
Context {UP : URLParser} {UO : Unmarshaler outerResponse}.
Context {MG : Marshaler GetUpdates} {UU : Unmarshaler (list (option Update))}.
Context {UM : Unmarshaler User}.

(** [func (b *Bot) GetUpdates(req *GetUpdates) ([]*Update, error)].
    An entry of the slice is a pointer and may be nil. *)
Definition Bot_GetUpdates (n : Network) (b : Bot) (rq : GetUpdates)
  : list (option Update) * option goerror :=
  let '(err, w) :=
    run_call (Caller_Poll n (caller b) "getUpdates" (Some rq)) (Some []) in
  (match target w with Some updates => updates | None => [] end, err).

(** [func (b *Bot) GetMe() ( *User, error)], with the effects of the
    call. *)
Definition Bot_GetMe (n : Network) (b : Bot)
  : (User * option goerror) * list Effect :=
  let '(err, w) :=
    run_call (Caller_Call n (caller b) "getMe" (@None NoRequest))
             (Some zero_User) in
  ((match target w with Some me => me | None => zero_User end, err), log w).

(** [if req.Offset <= upd.ID { req.Offset = upd.ID + 1 }]. *)
Definition advance (rq : GetUpdates) (u : Update) : GetUpdates :=
  if Offset rq <=? Upd_ID u
  then set_Offset rq (add64 (Upd_ID u) 1)
  else rq.

(** The body of [for _, upd := range upds]: the update is sent on the
    update channel, then its identifier is read and the cursor moved.
    Reading the identifier of a nil entry panics. *)
Definition deliver (rq : GetUpdates) (upd : option Update)
  : Poller * list Event :=
  match upd with
  | None => ({| req := rq; status := Panicked |}, [EvUpdate None; EvPanic])
  | Some u => ({| req := advance rq u; status := Running |}, [EvUpdate upd])
  end.

(** [for _, upd := range upds { ... }]. *)
Fixpoint range_updates (rq : GetUpdates) (upds : list (option Update))
  : Poller * list Event :=
  match upds with
  | [] => ({| req := rq; status := Running |}, [])
  | upd :: rest =>
      let '(st, tr) := deliver rq upd in
      match status st with
      | Running =>
          let '(st', tr') := range_updates (req st) rest in (st', tr ++ tr')
      | _ => (st, tr)
      end
  end.

(** One turn of [for { select { ... } }]. *)
Definition turn (b : Bot) (ctx : Context) (t : Turn) (st : Poller)
  : Poller * list Event :=
  if done_ready ctx t then
    ({| req := req st; status := Stopped |}, [EvCloseUpdates; EvCloseErrors])
  else
    let '(upds, err) := Bot_GetUpdates (net t) b (req st) in
    match err with
    | Some e =>
        (st, [EvGetUpdates (req st) upds err; EvError e;
              EvSleep (BackoffPeriod b)])
    | None =>
        let '(st', tr) := range_updates (req st) upds in
        (st', EvGetUpdates (req st) upds err :: tr)
    end.

(** What a turn whose remote call fails does: the call, the error on the
    error channel, the sleep.  (Empty when the call does not fail.) *)
Definition failure_events (b : Bot) (rq : GetUpdates) (t : Turn)
  : list Event :=
  match Bot_GetUpdates (net t) b rq with
  | (upds, Some e) =>
      [EvGetUpdates rq upds (Some e); EvError e; EvSleep (BackoffPeriod b)]
  | (_, None) => []
  end.

(** The goroutine, run against the turns the world offers it.  It takes
    a turn only while it is in its loop. *)
Fixpoint goroutine (b : Bot) (ctx : Context) (turns : list Turn)
    (st : Poller) : Poller * list Event :=
  match turns with
  | [] => (st, [])
  | t :: rest =>
      match status st with
      | Running =>
          let '(st', tr) := turn b ctx t st in
          let '(st'', tr') := goroutine b ctx rest st' in
          (st'', tr ++ tr')
      | _ => (st, [])
      end
  end.

(** [func (b *Bot) PollUpdates(ctx, req) (chan *Update, chan error)]:
    a nil context becomes the background context, the timeout is
    normalised once, and the goroutine is started on the request. *)
Definition Bot_PollUpdates (b : Bot) (ctx : option Context)
    (rq : GetUpdates) (turns : list Turn) : Poller * list Event :=
  let ctx := match ctx with None => Background | Some c => c end in
  let rq := if Timeout rq <=? 0 then set_Timeout rq DefaultPollTimeout
            else rq in
  goroutine b ctx turns {| req := rq; status := Running |}.

(** [func NewBot(token string) ( *Bot, error)], with the effects of the
    construction. *)
Definition NewBot (n : Network) (token : string)
  : (Bot * option goerror) * list Effect :=
  let bot := {| Self := None; BackoffPeriod := DefaultBackoffPeriod;
                caller := NewCaller EndpointURL token |} in
  let '((me, err), ef) := Bot_GetMe n bot in
  (({| Self := Some me; BackoffPeriod := BackoffPeriod bot;
       caller := caller bot |}, err), ef).

End Poller.

(* ===================================================================== *)
(** ** Observations on traces *)
(* ===================================================================== *)

(** The updates sent on the update channel, in order. *)
Definition emitted (tr : list Event) : list (option Update) :=
  flat_map (fun ev => match ev with EvUpdate u => [u] | _ => [] end) tr.

(** The entries of the batches the successful remote calls returned, in
    order. *)
Definition returned (tr : list Event) : list (option Update) :=
  flat_map (fun ev => match ev with
                      | EvGetUpdates _ upds None => upds
                      | _ => []
                      end) tr.

(** The requests the remote calls were made with, in order. *)
Definition calls (tr : list Event) : list GetUpdates :=
  flat_map (fun ev => match ev with EvGetUpdates r _ _ => [r] | _ => [] end) tr.

Definition is_close (ev : Event) : bool :=
  match ev with EvCloseUpdates | EvCloseErrors => true | _ => false end.

Definition is_EvCloseUpdates (ev : Event) : bool :=
  match ev with EvCloseUpdates => true | _ => false end.

Definition is_EvCloseErrors (ev : Event) : bool :=
  match ev with EvCloseErrors => true | _ => false end.

(** The identifier of an emitted update is an [int64] below the largest. *)
Definition id_below_max (ev : Event) : Prop :=
  match ev with
  | EvUpdate (Some u) => MinInt64 <= Upd_ID u < MaxInt64
  | _ => True
  end.

(** The HTTP requests an invocation of [do] sent, in order. *)
Definition sent (ef : list Effect) : list (Client * Request) :=
  flat_map (fun e => match e with EfSend cl r => [(cl, r)] | _ => [] end) ef.

(** The invocations of [do], in order. *)
Definition invocations (ef : list Effect) : list (Client * string) :=
  flat_map (fun e => match e with EfRPC cl n => [(cl, n)] | _ => [] end) ef.

(** The raw results handed to [json.Unmarshal], in order. *)
Definition unmarshalled (ef : list Effect) : list bytes :=
  flat_map (fun e => match e with EfUnmarshal raw => [raw] | _ => [] end) ef.

(** The largest of a non-empty list of identifiers. *)
Definition max_id (i : Z) (rest : list Z) : Z := fold_right Z.max i rest.

(* ===================================================================== *)
(** ** A small world to run the code in *)
(* ===================================================================== *)

Module Sim.

(** [url.Parse] rejects a URL that holds an ASCII control character. *)
Fixpoint has_control (s : string) : bool :=
  match s with
  | EmptyString => false
  | String a rest => (Ascii.nat_of_ascii a <? 32)%nat || has_control rest
  end.

Definition parser : URLParser :=
  fun url => if has_control url
             then Some "net/url: invalid control character in URL"
             else None.

(** A one-byte framing of the envelope: the first byte of the body is
    the flag (01 ok, 00 failure without description, 02 failure with a
    description), the rest is the raw result. *)
Definition envelope : Unmarshaler outerResponse :=
  fun body old =>
    match body with
    | Byte.x01 :: raw =>
        ({| Ok := true; Result := raw; Outer_Description := "" |}, None)
    | Byte.x00 :: raw =>
        ({| Ok := false; Result := raw; Outer_Description := "" |}, None)
    | Byte.x02 :: raw =>
        ({| Ok := false; Result := raw;
            Outer_Description := "Unauthorized" |}, None)
    | [] => (old, Some "EOF")
    | _ => (old, Some "invalid character looking for beginning of value")
    end.

Definition update (id : Z) : Update :=
  {| Upd_ID := id;
     Upd_Message := Some {| Message_ID := id; Message_Date := 0;
                            Message_Text := "hi" |};
     Upd_EditedMessage := None; Upd_ChannelPost := None;
     Upd_EditedChannelPost := None; Upd_InlineQuery := None;
     Upd_ChosenInlineResult := None; Upd_CallbackQuery := None |}.

(** One byte per entry of the batch: 00 is a null entry, ff the update
    with the largest identifier, fe a value of the wrong shape, any
    other byte the update with that identifier. *)
Fixpoint entries (raw : bytes) (acc : list (option Update))
  : list (option Update) * option string :=
  match raw with
  | [] => (acc, None)
  | Byte.xfe :: _ =>
      (acc, Some "json: cannot unmarshal string into Go value")
  | Byte.x00 :: rest => entries rest (acc ++ [None])
  | Byte.xff :: rest => entries rest (acc ++ [Some (update MaxInt64)])
  | b :: rest =>
      entries rest (acc ++ [Some (update (Z.of_N (Byte.to_N b)))])
  end.

Definition batch : Unmarshaler (list (option Update)) :=
  fun raw _ => entries raw [].

Definition user : Unmarshaler User :=
  fun raw old =>
    match raw with
    | [b] => ({| User_ID := Z.of_N (Byte.to_N b); IsBot := true;
                 FirstName := "bot"; LastName := ""; Username := "bot";
                 LanguageCode := "" |}, None)
    | _ => (old, Some "unexpected end of JSON input")
    end.

(** The request is encoded by the low byte of its timeout. *)
Definition request : Marshaler GetUpdates :=
  fun rq =>
    match Byte.of_N (Z.to_N (Timeout rq mod 256)) with
    | Some b => inr [b]
    | None => inl "json: unsupported value"
    end.

(** A network that answers every request with one response. *)
Definition answers (code : Z) (body : bytes) : Network :=
  fun _ _ => inr {| StatusCode := code; Response_Body := body |}.

(** A network that is down. *)
Definition down : Network :=
  fun _ _ => inl "dial tcp: connection refused".

Definition bot : Bot :=
  {| Self := None; BackoffPeriod := DefaultBackoffPeriod;
     caller := NewCaller EndpointURL "TOKEN" |}.

Definition request0 : GetUpdates :=
  {| Offset := 0; Limit := 0; Timeout := 0; AllowedUpdates := [] |}.

(** The poller and the constructor in this world. *)
Definition poll := @Bot_PollUpdates parser envelope request batch.
Definition run := @goroutine parser envelope request batch.
Definition step := @turn parser envelope request batch.
Definition getUpdates := @Bot_GetUpdates parser envelope request batch.
Definition newBot := @NewBot parser envelope user.

(** A poller in its loop on a request with cursor [c] and timeout 60. *)
Definition running (c : Z) : Poller :=
  {| req := {| Offset := c; Limit := 0; Timeout := 60; AllowedUpdates := [] |};
     status := Running |}.

(** Turns: the remote answers with the batch of updates 5 and 7; with the
    one update that has the largest identifier; with a batch that holds a
    null; the remote declares a failure without description; the network
    is down; the context has been cancelled. *)
Definition turn_5_7 : Turn :=
  {| done_closed := false;
     net := answers 200 [Byte.x01; Byte.x05; Byte.x07] |}.

Definition turn_max : Turn :=
  {| done_closed := false; net := answers 200 [Byte.x01; Byte.xff] |}.

Definition turn_null : Turn :=
  {| done_closed := false;
     net := answers 200 [Byte.x01; Byte.x05; Byte.x00; Byte.x07] |}.

Definition turn_refused : Turn :=
  {| done_closed := false; net := answers 401 [Byte.x00] |}.

Definition turn_down : Turn :=
  {| done_closed := false; net := down |}.

Definition turn_cancelled : Turn :=
  {| done_closed := true; net := down |}.

End Sim.

(* ===================================================================== *)
(** ** Requests and answers of the other methods (bot.go, types.go) *)
(* ===================================================================== *)

(** [float64]: an IEEE 754 binary64 value.  The package stores and
    marshals these values and never computes with them. *)
Definition float64 : Type := SpecFloat.spec_float.

(** [type ParseMode string] and its constants. *)
Definition ParseMode := string.
Definition Markdown : ParseMode := "Markdown".
Definition HTML : ParseMode := "HTML".

(** [type SetWebhook struct]. *)
Record SetWebhook := {
  SetWebhook_URL : string;
  SetWebhook_MaxConnections : Z;
  SetWebhook_AllowedUpdates : list UpdateType
}.

(** [type WebhookInfo struct]. *)
Record WebhookInfo := {
  WebhookInfo_URL : string;
  HasCustomCertificate : bool;
  PendingUpdateCount : Z;
  LastErrorDate : Z;
  LastErrorMessage : string;
  WebhookInfo_MaxConnections : Z;
  WebhookInfo_AllowedUpdates : list string
}.

(** The zero values of [var info WebhookInfo] and [var msg Message]. *)
Definition zero_WebhookInfo : WebhookInfo :=
  {| WebhookInfo_URL := ""; HasCustomCertificate := false;
     PendingUpdateCount := 0; LastErrorDate := 0; LastErrorMessage := "";
     WebhookInfo_MaxConnections := 0; WebhookInfo_AllowedUpdates := [] |}.

Definition zero_Message : Message :=
  {| Message_ID := 0; Message_Date := 0; Message_Text := "" |}.

(** [type AnswerCallbackQuery struct]. *)
Record AnswerCallbackQuery := {
  CallbackQueryID : string;
  AnswerCallbackQuery_Text : string;
  ShowAlert : bool;
  AnswerCallbackQuery_URL : string;
  CacheTime : Z
}.

(** [type DeleteMessage struct]. *)
Record DeleteMessage := {
  DeleteMessage_ChatID : Z;
  DeleteMessage_MessageID : Z
}.

(** [type KeyboardButton struct] and [type InlineKeyboardButton struct]. *)
Record KeyboardButton := {
  KeyboardButton_Text : string;
  RequestContact : bool;
  RequestLocation : bool
}.

Record InlineKeyboardButton := {
  InlineKeyboardButton_Text : string;
  InlineKeyboardButton_URL : string;
  CallbackData : string;
  SwitchInlineQuery : string;
  SwitchInlineQueryCurrentChat : string
}.

(** The four reply markups. *)
Record ReplyKeyboardMarkup := {
  Keyboard : list (list (option KeyboardButton));
  ResizeKeyboard : bool;
  OneTimeKeyboard : bool;
  ReplyKeyboardMarkup_Selective : bool
}.

Record ReplyKeyboardRemove := {
  RemoveKeyboard : bool;
  ReplyKeyboardRemove_Selective : bool
}.

Record InlineKeyboardMarkup := {
  InlineKeyboard : list (list (option InlineKeyboardButton))
}.

Record ForceReply := {
  ForceReply_ForceReply : bool;
  ForceReply_Selective : bool
}.

(** [type ReplyMarkupType string] and its constants. *)
Definition ReplyMarkupType := string.
Definition InlineKeyboardMarkupType : ReplyMarkupType := "inline_keyboard_markup".
Definition ReplyKeyboardMarkupType : ReplyMarkupType := "reply_keyboard_markup".
Definition ReplyKeyboardRemoveType : ReplyMarkupType := "reply_keyboard_remove".
Definition ForceReplyType : ReplyMarkupType := "force_reply".

(** [type ReplyMarkup interface]: a value of the interface is a pointer
    (the methods have pointer receivers, the pointer may be nil) to one of
    the four structs of the package that implement it. *)
Inductive ReplyMarkup : Type :=
| RM_InlineKeyboardMarkup (p : option InlineKeyboardMarkup)
| RM_ReplyKeyboardMarkup (p : option ReplyKeyboardMarkup)
| RM_ReplyKeyboardRemove (p : option ReplyKeyboardRemove)
| RM_ForceReply (p : option ForceReply).

(** The four [Type() ReplyMarkupType] methods; none reads its receiver. *)
Definition ReplyMarkup_Type (r : ReplyMarkup) : ReplyMarkupType :=
  match r with
  | RM_InlineKeyboardMarkup _ => InlineKeyboardMarkupType
  | RM_ReplyKeyboardMarkup _ => ReplyKeyboardMarkupType
  | RM_ReplyKeyboardRemove _ => ReplyKeyboardRemoveType
  | RM_ForceReply _ => ForceReplyType
  end.

(** [func NewKeyboard], [func NewKeyboardRow], [func NewInlineKeyboard],
    [func NewInlineKeyboardRow]: the variadic arguments, as a slice. *)
Definition NewKeyboard (rows : list (list (option KeyboardButton)))
  : list (list (option KeyboardButton)) := rows.

Definition NewKeyboardRow (cols : list (option KeyboardButton))
  : list (option KeyboardButton) := cols.

Definition NewInlineKeyboard (rows : list (list (option InlineKeyboardButton)))
  : list (list (option InlineKeyboardButton)) := rows.

Definition NewInlineKeyboardRow (cols : list (option InlineKeyboardButton))
  : list (option InlineKeyboardButton) := cols.

(** The ten send requests. *)
Record SendMessage := {
  SendMessage_ChatID : Z;
  SendMessage_Text : string;
  SendMessage_ParseMode : ParseMode;
  SendMessage_DisableWebPagePreview : bool;
  SendMessage_DisableNotification : bool;
  SendMessage_ReplyToMessageID : Z;
  SendMessage_ReplyMarkup : option ReplyMarkup
}.

Record ForwardMessage := {
  ForwardMessage_ChatID : Z;
  ForwardMessage_FromChatID : Z;
  ForwardMessage_DisableNotification : bool;
  ForwardMessage_MessageID : Z
}.

Record SendLocation := {
  SendLocation_ChatID : Z;
  SendLocation_Latitude : float64;
  SendLocation_Longitude : float64;
  SendLocation_LivePeriod : Z;
  SendLocation_DisableNotification : bool;
  SendLocation_ReplyToMessageID : Z;
  SendLocation_ReplyMarkup : option ReplyMarkup
}.

Record EditMessageLiveLocation := {
  EditMessageLiveLocation_ChatID : Z;
  EditMessageLiveLocation_MessageID : Z;
  EditMessageLiveLocation_InlineMessageID : string;
  EditMessageLiveLocation_Latitude : float64;
  EditMessageLiveLocation_Longitude : float64;
  EditMessageLiveLocation_ReplyMarkup : option InlineKeyboardMarkup
}.

Record StopMessageLiveLocation := {
  StopMessageLiveLocation_ChatID : Z;
  StopMessageLiveLocation_MessageID : Z;
  StopMessageLiveLocation_InlineMessageID : string;
  StopMessageLiveLocation_ReplyMarkup : option InlineKeyboardMarkup
}.

Record SendVenue := {
  SendVenue_ChatID : Z;
  SendVenue_Latitude : float64;
  SendVenue_Longitude : float64;
  SendVenue_Title : string;
  SendVenue_Address : string;
  SendVenue_FoursquareID : string;
  SendVenue_DisableNotification : bool;
  SendVenue_ReplyToMessageID : Z;
  SendVenue_ReplyMarkup : option ReplyMarkup
}.

Record SendContact := {
  SendContact_ChatID : Z;
  SendContact_PhoneNumber : string;
  SendContact_FirstName : string;
  SendContact_LastName : string;
  SendContact_DisableNotification : bool;
  SendContact_ReplyToMessageID : Z;
  SendContact_ReplyMarkup : option ReplyMarkup
}.

Record EditMessageText := {
  EditMessageText_ChatID : Z;
  EditMessageText_MessageID : Z;
  EditMessageText_InlineMessageID : string;
  EditMessageText_Text : string;
  EditMessageText_ParseMode : ParseMode;
  EditMessageText_DisableWebPagePreview : bool;
  EditMessageText_ReplyMarkup : option ReplyMarkup
}.

Record EditMessageCaption := {
  EditMessageCaption_ChatID : Z;
  EditMessageCaption_MessageID : Z;
  EditMessageCaption_InlineMessageID : string;
  EditMessageCaption_Caption : string;
  EditMessageCaption_ParseMode : ParseMode;
  EditMessageCaption_ReplyMarkup : option ReplyMarkup
}.

Record EditMessageReplyMarkup := {
  EditMessageReplyMarkup_ChatID : Z;
  EditMessageReplyMarkup_MessageID : Z;
  EditMessageReplyMarkup_InlineMessageID : string;
  EditMessageReplyMarkup_ReplyMarkup : option ReplyMarkup
}.

(** [type SendRequestType string] and its constants. *)
Definition SendRequestType := string.
Definition SendMessageRequest : SendRequestType := "sendMessage".
Definition ForwardMessageRequest : SendRequestType := "forwardMessage".
Definition SendLocationRequest : SendRequestType := "sendLocation".
Definition EditMessageLiveLocationRequest : SendRequestType :=
  "editMessageLiveLocation".
Definition StopMessageLiveLocationRequest : SendRequestType :=
  "stopMessageLiveLocation".
Definition SendVenueRequest : SendRequestType := "sendVenue".
Definition SendContactRequest : SendRequestType := "sendContact".
Definition EditMessageTextRequest : SendRequestType := "editMessageText".
Definition EditMessageCaptionRequest : SendRequestType := "editMessageCaption".
Definition EditMessageReplyMarkupRequest : SendRequestType :=
  "editMessageReplyMarkup".

(** [type SendRequest interface]: a value of the interface is a pointer,
    possibly nil, to one of the ten structs of the package that implement
    it. *)
Inductive SendRequest : Type :=
| SR_SendMessage (m : option SendMessage)
| SR_ForwardMessage (m : option ForwardMessage)
| SR_SendLocation (m : option SendLocation)
| SR_EditMessageLiveLocation (m : option EditMessageLiveLocation)
| SR_StopMessageLiveLocation (m : option StopMessageLiveLocation)
| SR_SendVenue (m : option SendVenue)
| SR_SendContact (m : option SendContact)
| SR_EditMessageText (m : option EditMessageText)
| SR_EditMessageCaption (m : option EditMessageCaption)
| SR_EditMessageReplyMarkup (m : option EditMessageReplyMarkup).

(** The ten [Type() SendRequestType] methods, dispatched on the dynamic
    type; none reads its receiver. *)
Definition SendRequest_Type (r : SendRequest) : SendRequestType :=
  match r with
  | SR_SendMessage _ => SendMessageRequest
  | SR_ForwardMessage _ => ForwardMessageRequest
  | SR_SendLocation _ => SendLocationRequest
  | SR_EditMessageLiveLocation _ => EditMessageLiveLocationRequest
  | SR_StopMessageLiveLocation _ => StopMessageLiveLocationRequest
  | SR_SendVenue _ => SendVenueRequest
  | SR_SendContact _ => SendContactRequest
  | SR_EditMessageText _ => EditMessageTextRequest
  | SR_EditMessageCaption _ => EditMessageCaptionRequest
  | SR_EditMessageReplyMarkup _ => EditMessageReplyMarkupRequest
  end.

(** The struct a send request points to, by position in the list of the
    ten. *)
Definition SendRequest_struct (r : SendRequest) : nat :=
  match r with
  | SR_SendMessage _ => 0
  | SR_ForwardMessage _ => 1
  | SR_SendLocation _ => 2
  | SR_EditMessageLiveLocation _ => 3
  | SR_StopMessageLiveLocation _ => 4
  | SR_SendVenue _ => 5
  | SR_SendContact _ => 6
  | SR_EditMessageText _ => 7
  | SR_EditMessageCaption _ => 8
  | SR_EditMessageReplyMarkup _ => 9
  end%nat.

(** The target type of a call made with a nil [response]: there is no
    target, and nothing to decode into. *)
Definition NoResponse : Type := Empty_set.

#[export] Instance Unmarshaler_NoResponse : Unmarshaler NoResponse :=
  fun _ a => match a with end.

Section Methods.
Context {UP : URLParser} {UO : Unmarshaler outerResponse}.
Context {MSW : Marshaler (option SetWebhook)}.
Context {MAC : Marshaler (option AnswerCallbackQuery)}.
Context {MDM : Marshaler (option DeleteMessage)}.
Context {MSR : Marshaler SendRequest}.
Context {UB : Unmarshaler bool} {UWI : Unmarshaler WebhookInfo}.
Context {UMS : Unmarshaler Message}.

(** [func (b *Bot) SetWebhook(req *SetWebhook) error].  The pointer, nil
    or not, is a payload; there is no target. *)
Definition Bot_SetWebhook (n : Network) (b : Bot) (rq : option SetWebhook)
  : option goerror * list Effect :=
  let '(err, w) :=
    run_call (Rs := NoResponse)
      (Caller_Call n (caller b) "setWebhook" (Some rq)) None in
  (err, log w).

(** [func (b *Bot) DeleteWebhook() (bool, error)]. *)
Definition Bot_DeleteWebhook (n : Network) (b : Bot)
  : (bool * option goerror) * list Effect :=
  let '(err, w) :=
    run_call (Caller_Call n (caller b) "deleteWebhook" (@None NoRequest))
             (Some false) in
  ((match target w with Some ok => ok | None => false end, err), log w).

(** [func (b *Bot) GetWebhookInfo() ( *WebhookInfo, error)]. *)
Definition Bot_GetWebhookInfo (n : Network) (b : Bot)
  : (WebhookInfo * option goerror) * list Effect :=
  let '(err, w) :=
    run_call (Caller_Call n (caller b) "getWebhookInfo" (@None NoRequest))
             (Some zero_WebhookInfo) in
  ((match target w with Some info => info | None => zero_WebhookInfo end,
    err), log w).

(** [func (b *Bot) Send(req SendRequest) ( *Message, error)].  Calling
    [Type] on a nil interface panics before anything is done: [None]. *)
Definition Bot_Send (n : Network) (b : Bot) (rq : option SendRequest)
  : option ((Message * option goerror) * list Effect) :=
  match rq with
  | None => None
  | Some r =>
      let '(err, w) :=
        run_call (Caller_Call n (caller b) (SendRequest_Type r) (Some r))
                 (Some zero_Message) in
      Some ((match target w with Some msg => msg | None => zero_Message end,
             err), log w)
  end.

(** [func (b *Bot) AnswerCallbackQuery(req *AnswerCallbackQuery) (bool, error)]. *)
Definition Bot_AnswerCallbackQuery (n : Network) (b : Bot)
    (rq : option AnswerCallbackQuery)
  : (bool * option goerror) * list Effect :=
  let '(err, w) :=
    run_call (Caller_Call n (caller b) "answerCallbackQuery" (Some rq))
             (Some false) in
  ((match target w with Some ok => ok | None => false end, err), log w).

(** [func (b *Bot) DeleteMessage(req *DeleteMessage) (bool, error)]. *)
Definition Bot_DeleteMessage (n : Network) (b : Bot)
    (rq : option DeleteMessage)
  : (bool * option goerror) * list Effect :=
  let '(err, w) :=
    run_call (Caller_Call n (caller b) "deleteMessage" (Some rq))
             (Some false) in
  ((match target w with Some ok => ok | None => false end, err), log w).

End Methods.

(* ===================================================================== *)
(** ** Observations on the error channel *)
(* ===================================================================== *)

(** The errors sent on the error channel, in order. *)
Definition errors (tr : list Event) : list goerror :=
  flat_map (fun ev => match ev with EvError e => [e] | _ => [] end) tr.

(** The errors the failed remote calls returned, in order. *)
Definition failures (tr : list Event) : list goerror :=
  flat_map (fun ev => match ev with
                      | EvGetUpdates _ _ (Some e) => [e]
                      | _ => []
                      end) tr.

(** The sleeps, in order. *)
Definition sleeps (tr : list Event) : list Duration :=
  flat_map (fun ev => match ev with EvSleep d => [d] | _ => [] end) tr.

(* ===================================================================== *)
(** ** Observations on the effects of a method *)
(* ===================================================================== *)

(** The effects are those of one invocation [name] on the caller's
    standard client, and whatever was sent is a GET of the method's URL
    without body and without header. *)
Definition plain_get (c : Caller) (name : string) (ef : list Effect) : Prop :=
  invocations ef = [(client c, name)]
  /\ forall cl r,
       In (cl, r) (sent ef) ->
       cl = client c
       /\ r = {| Method := "GET"; URL := prefix c ++ name;
                 Body := None; Header := [] |}.

(** The effects are those of one invocation [name] on the caller's
    standard client, and whatever was sent is a POST of the method's URL
    whose body is the encoding [body] of the payload and whose only
    header is the JSON content type. *)
Definition json_post (c : Caller) (name : string) (body : string + bytes)
    (ef : list Effect) : Prop :=
  invocations ef = [(client c, name)]
  /\ forall cl r,
       In (cl, r) (sent ef) ->
       cl = client c
       /\ exists buf,
            body = inr buf
            /\ r = {| Method := "POST"; URL := prefix c ++ name;
                      Body := Some buf;
                      Header := [("Content-Type", "application/json")] |}.

(* ===================================================================== *)
(** ** More of the small world *)
(* ===================================================================== *)

Module SimAPI.

(** The answer to a method that returns True: the byte 01 is true, 00 is
    false, anything else is of the wrong shape. *)
Definition flag : Unmarshaler bool :=
  fun raw old =>
    match raw with
    | [Byte.x01] => (true, None)
    | [Byte.x00] => (false, None)
    | _ => (old, Some "json: cannot unmarshal into Go value of type bool")
    end.

Definition message : Unmarshaler Message :=
  fun raw old =>
    match raw with
    | [b] => ({| Message_ID := Z.of_N (Byte.to_N b); Message_Date := 0;
                 Message_Text := "sent" |}, None)
    | _ => (old, Some "unexpected end of JSON input")
    end.

Definition info : Unmarshaler WebhookInfo :=
  fun raw old =>
    match raw with
    | [b] => ({| WebhookInfo_URL := "https://example.org/hook";
                 HasCustomCertificate := false;
                 PendingUpdateCount := Z.of_N (Byte.to_N b);
                 LastErrorDate := 0; LastErrorMessage := "";
                 WebhookInfo_MaxConnections := 40;
                 WebhookInfo_AllowedUpdates := [] |}, None)
    | _ => (old, Some "unexpected end of JSON input")
    end.

(** Payloads are encoded by one byte: a nil pointer as 6e (the first
    letter of null), a struct as 7b (an opening brace). *)
Definition pointer {A : Type} : Marshaler (option A) :=
  fun p => match p with
           | None => inr [Byte.x6e]
           | Some _ => inr [Byte.x7b]
           end.

(** A send request is encoded by one byte; a venue without title does
    not marshal. *)
Definition send : Marshaler SendRequest :=
  fun r =>
    match r with
    | SR_SendVenue (Some v) =>
        if String.eqb (SendVenue_Title v) ""
        then inl "json: error calling MarshalJSON"
        else inr [Byte.x7b]
    | _ => inr [Byte.x7b]
    end.

Definition setWebhook :=
  @Bot_SetWebhook Sim.parser Sim.envelope pointer.
Definition deleteWebhook := @Bot_DeleteWebhook Sim.parser Sim.envelope flag.
Definition getWebhookInfo := @Bot_GetWebhookInfo Sim.parser Sim.envelope info.
Definition sendRequest := @Bot_Send Sim.parser Sim.envelope send message.
Definition answerCallbackQuery :=
  @Bot_AnswerCallbackQuery Sim.parser Sim.envelope pointer flag.
Definition deleteMessage :=
  @Bot_DeleteMessage Sim.parser Sim.envelope pointer flag.
Definition getMe := @Bot_GetMe Sim.parser Sim.envelope Sim.user.

(** [do] with a poll request as payload and a batch as target. *)
Definition do := @Caller_do Sim.parser Sim.envelope GetUpdates
                   (list (option Update)) Sim.request Sim.batch.

Definition text (s : string) : SendRequest :=
  SR_SendMessage (Some {| SendMessage_ChatID := 42; SendMessage_Text := s;
                          SendMessage_ParseMode := "";
                          SendMessage_DisableWebPagePreview := false;
                          SendMessage_DisableNotification := false;
                          SendMessage_ReplyToMessageID := 0;
                          SendMessage_ReplyMarkup := None |}).

(** A turn whose answer is not JSON, and one whose batch is stale. *)
Definition turn_garbled : Turn :=
  {| done_closed := false; net := Sim.answers 502 [Byte.x3c] |}.

Definition turn_3_4 : Turn :=
  {| done_closed := false;
     net := Sim.answers 200 [Byte.x01; Byte.x03; Byte.x04] |}.

End SimAPI.

(* ===================================================================== *)
(** ** Proof steps *)
(* ===================================================================== *)

(** Unfolding one invocation of [do] down to the calls it makes to the
    outside world. *)
Ltac run_do :=
  unfold run_call, run_from, Caller_Call, Caller_Poll, Caller_do, client_Do,
    decode_outer, http_NewRequest, bind, emit, lib, ret, raise;
  cbn [log target app notnil].

(** A list of effects written out does not hold an effect it does not
    show. *)
Ltac not_in_log H :=
  cbn in H;
  repeat match type of H with
    | _ \/ _ => destruct H as [H | H]
    | False => destruct H
    | _ = _ => discriminate H
    end.

(** [do] has returned a library error after the effects shown, none of
    which is an envelope or a decoding. *)
Ltac fails_early :=
  left; eexists;
  split; [reflexivity |];
  split; [reflexivity |];
  split; [intros ? ? Hin; not_in_log Hin | reflexivity].

(* ===================================================================== *)
(** ** Properties of [Update.Type] *)
(* ===================================================================== *)

(** C10.  [Update.Type] is a total function of the update: its result is
    the kind of the first populated payload slot in the order message,
    edited message, channel post, edited channel post, inline query,
    chosen inline result, callback query; it is the empty string when all
    seven slots are nil; and whatever the number of populated slots, the
    result is one of the seven kinds or the empty string. *)
Theorem Update_Type_first_populated (u : Update) :
  Update_Type u = first_populated (kind_slots u)
  /\ (Upd_Message u = None -> Upd_EditedMessage u = None ->
      Upd_ChannelPost u = None -> Upd_EditedChannelPost u = None ->
      Upd_InlineQuery u = None -> Upd_ChosenInlineResult u = None ->
      Upd_CallbackQuery u = None -> Update_Type u = "")
  /\ In (Update_Type u)
        [MessageUpdate; EditedMessageUpdate; ChannelPostUpdate;
         EditedChannelPostUpdate; InlineQueryUpdate;
         ChosenInlineResultUpdate; CallbackQueryUpdate; ""].
Proof.
  destruct u as [id m em cp ecp iq cir cq].
  unfold Update_Type, kind_slots; cbn [Upd_Message Upd_EditedMessage
    Upd_ChannelPost Upd_EditedChannelPost Upd_InlineQuery
    Upd_ChosenInlineResult Upd_CallbackQuery].
  split; [| split].
  - destruct m, em, cp, ecp, iq, cir, cq; reflexivity.
  - intros -> -> -> -> -> -> ->. reflexivity.
  - destruct m, em, cp, ecp, iq, cir, cq; cbn; tauto.
Qed.

(** An update with no populated slot has the empty kind. *)
Lemma Update_Type_first_populated_witness :
  Update_Type {| Upd_ID := 1; Upd_Message := None; Upd_EditedMessage := None;
                 Upd_ChannelPost := None; Upd_EditedChannelPost := None;
                 Upd_InlineQuery := None; Upd_ChosenInlineResult := None;
                 Upd_CallbackQuery := None |} = "".
Proof.
  apply (proj1 (proj2 (Update_Type_first_populated _))); reflexivity.
Defined.

(* ===================================================================== *)
(** ** Arithmetic of the cursor *)
(* ===================================================================== *)

Lemma add64_succ (a : Z) :
  MinInt64 <= a < MaxInt64 -> add64 a 1 = a + 1.
Proof.
  unfold add64, wrap64, MinInt64, MaxInt64. intros Ha.
  rewrite Z.mod_small; lia.
Qed.

Lemma add64_MaxInt64 : add64 MaxInt64 1 = MinInt64.
Proof. reflexivity. Qed.

Lemma Offset_advance (rq : GetUpdates) (u : Update) :
  MinInt64 <= Upd_ID u < MaxInt64 ->
  Offset (advance rq u) = Z.max (Offset rq) (Upd_ID u + 1).
Proof.
  intros Hu. unfold advance.
  destruct (Z.leb_spec (Offset rq) (Upd_ID u)); cbn.
  - rewrite add64_succ by assumption. lia.
  - lia.
Qed.

Lemma Timeout_advance (rq : GetUpdates) (u : Update) :
  Timeout (advance rq u) = Timeout rq.
Proof. unfold advance. destruct (Offset rq <=? Upd_ID u); reflexivity. Qed.

Lemma fold_max_succ (rest : list Z) :
  forall c i,
    fold_left (fun c j => Z.max c (j + 1)) rest (Z.max c (i + 1))
    = Z.max c (max_id i rest + 1).
Proof.
  induction rest as [| j rest IH]; intros c i; cbn.
  - reflexivity.
  - replace (Z.max (Z.max c (i + 1)) (j + 1))
      with (Z.max (Z.max c (j + 1)) (i + 1)) by lia.
    rewrite IH. unfold max_id. lia.
Qed.

Lemma Offset_fold_advance (us : list Update) :
  forall rq,
    Forall (fun u => MinInt64 <= Upd_ID u < MaxInt64) us ->
    Offset (fold_left advance us rq)
    = fold_left (fun c j => Z.max c (j + 1)) (map Upd_ID us) (Offset rq).
Proof.
  induction us as [| u us IH]; intros rq Hb; cbn.
  - reflexivity.
  - inversion Hb as [| ? ? Hu Hus]; subst.
    rewrite IH by assumption. now rewrite Offset_advance.
Qed.

Lemma Timeout_fold_advance (us : list Update) :
  forall rq, Timeout (fold_left advance us rq) = Timeout rq.
Proof.
  induction us as [| u us IH]; intros rq; cbn.
  - reflexivity.
  - now rewrite IH, Timeout_advance.
Qed.

(* ===================================================================== *)
(** ** The loop over one batch *)
(* ===================================================================== *)

Lemma range_updates_Some (us : list Update) :
  forall rq,
    range_updates rq (map Some us)
    = ({| req := fold_left advance us rq; status := Running |},
       map (fun u => EvUpdate (Some u)) us).
Proof.
  induction us as [| u us IH]; intros rq; cbn.
  - reflexivity.
  - now rewrite IH.
Qed.

(** Up to the first nil entry the loop behaves as on a batch without nil
    entries; at the nil entry it sends the entry and panics. *)
Lemma range_updates_nil_entry (us : list Update) (rest : list (option Update)) :
  forall rq,
    range_updates rq (map Some us ++ None :: rest)
    = ({| req := fold_left advance us rq; status := Panicked |},
       map (fun u => EvUpdate (Some u)) us ++ [EvUpdate None; EvPanic]).
Proof.
  induction us as [| u us IH]; intros rq; cbn.
  - reflexivity.
  - now rewrite IH.
Qed.

(** A batch either has no nil entry or splits at its first one. *)
Lemma batch_split (upds : list (option Update)) :
  (exists us, upds = map Some us)
  \/ (exists us rest, upds = map Some us ++ None :: rest).
Proof.
  induction upds as [| [u |] upds IH].
  - left. now exists [].
  - destruct IH as [[us ->] | [us [rest ->]]].
    + left. now exists (u :: us).
    + right. now exists (u :: us), rest.
  - right. now exists [], upds.
Qed.

Lemma Offset_fold_advance_le (us : list Update) :
  forall rq,
    Forall (fun u => MinInt64 <= Upd_ID u < MaxInt64) us ->
    Offset rq <= Offset (fold_left advance us rq).
Proof.
  induction us as [| u us IH]; intros rq Hb; cbn.
  - lia.
  - inversion Hb as [| ? ? Hu Hus]; subst.
    specialize (IH (advance rq u) Hus).
    rewrite Offset_advance in IH by assumption. lia.
Qed.

Lemma Forall_id_below_max_map (us : list Update) :
  Forall id_below_max (map (fun u => EvUpdate (Some u)) us) ->
  Forall (fun u => MinInt64 <= Upd_ID u < MaxInt64) us.
Proof.
  induction us as [| u us IH]; cbn; intros Hf.
  - constructor.
  - inversion Hf; subst. constructor; auto.
Qed.

(** The loop over a batch never lowers the cursor when the identifiers it
    meets are below the largest [int64], and leaves the timeout alone. *)
Lemma range_updates_inv (upds : list (option Update)) (rq : GetUpdates) :
  Timeout (req (fst (range_updates rq upds))) = Timeout rq
  /\ (Forall id_below_max (snd (range_updates rq upds)) ->
      Offset rq <= Offset (req (fst (range_updates rq upds)))).
Proof.
  destruct (batch_split upds) as [[us ->] | [us [rest ->]]].
  - rewrite range_updates_Some; cbn. split.
    + apply Timeout_fold_advance.
    + intros Hf. apply Offset_fold_advance_le, Forall_id_below_max_map, Hf.
  - rewrite range_updates_nil_entry; cbn. split.
    + apply Timeout_fold_advance.
    + intros Hf. apply Forall_app in Hf as [Hf _].
      apply Offset_fold_advance_le, Forall_id_below_max_map, Hf.
Qed.

Lemma emitted_app (tr1 tr2 : list Event) :
  emitted (tr1 ++ tr2) = emitted tr1 ++ emitted tr2.
Proof. apply flat_map_app. Qed.

Lemma returned_app (tr1 tr2 : list Event) :
  returned (tr1 ++ tr2) = returned tr1 ++ returned tr2.
Proof. apply flat_map_app. Qed.

Lemma calls_app (tr1 tr2 : list Event) :
  calls (tr1 ++ tr2) = calls tr1 ++ calls tr2.
Proof. apply flat_map_app. Qed.

(** What the loop over a batch sends on the update channel: the whole
    batch when no entry is nil, and in any case an initial part of it. *)
Lemma range_updates_emitted (upds : list (option Update)) (rq : GetUpdates) :
  (exists rest, upds = emitted (snd (range_updates rq upds)) ++ rest)
  /\ (status (fst (range_updates rq upds)) = Running ->
      emitted (snd (range_updates rq upds)) = upds)
  /\ status (fst (range_updates rq upds)) <> Stopped
  /\ calls (snd (range_updates rq upds)) = []
  /\ returned (snd (range_updates rq upds)) = []
  /\ filter is_close (snd (range_updates rq upds)) = [].
Proof.
  assert (Hem : forall us : list Update,
             emitted (map (fun u => EvUpdate (Some u)) us) = map Some us).
  { unfold emitted. induction us as [| u us IH]; cbn [map flat_map app];
      [reflexivity | now rewrite IH]. }
  assert (Hno : forall (f : Event -> list GetUpdates) (us : list Update),
             (forall u, f (EvUpdate u) = []) ->
             flat_map f (map (fun u => EvUpdate (Some u)) us) = []).
  { intros f us Hf. induction us as [| u us IH]; cbn;
      [reflexivity | now rewrite Hf, IH]. }
  assert (Hno' : forall (f : Event -> list (option Update)) (us : list Update),
             (forall u, f (EvUpdate u) = []) ->
             flat_map f (map (fun u => EvUpdate (Some u)) us) = []).
  { intros f us Hf. induction us as [| u us IH]; cbn;
      [reflexivity | now rewrite Hf, IH]. }
  assert (Hcl : forall us : list Update,
             filter is_close (map (fun u => EvUpdate (Some u)) us) = []).
  { induction us as [| u us IH]; cbn; [reflexivity | exact IH]. }
  destruct (batch_split upds) as [[us ->] | [us [rest ->]]].
  - rewrite range_updates_Some; cbn [fst snd status].
    rewrite Hem. repeat split.
    + exists []. now rewrite app_nil_r.
    + discriminate.
    + now apply Hno.
    + now apply Hno'.
    + apply Hcl.
  - rewrite range_updates_nil_entry; cbn [fst snd status].
    rewrite emitted_app, calls_app, returned_app, filter_app, Hem, Hcl.
    unfold calls, returned.
    rewrite Hno, Hno' by reflexivity. cbn.
    repeat split.
    + exists rest. now rewrite <- app_assoc.
    + discriminate.
    + discriminate.
Qed.

(* ===================================================================== *)
(** ** One turn of the loop *)
(* ===================================================================== *)

Section TurnProperties.
Context {UP : URLParser} {UO : Unmarshaler outerResponse}.
Context {MG : Marshaler GetUpdates} {UU : Unmarshaler (list (option Update))}.

Lemma turn_cancelled (b : Bot) (ctx : Context) (t : Turn) (st : Poller) :
  done_ready ctx t = true ->
  turn b ctx t st
  = ({| req := req st; status := Stopped |}, [EvCloseUpdates; EvCloseErrors]).
Proof. intros Hd. unfold turn. now rewrite Hd. Qed.

Lemma turn_failed (b : Bot) (ctx : Context) (t : Turn) (st : Poller)
    (upds : list (option Update)) (e : goerror) :
  done_ready ctx t = false ->
  Bot_GetUpdates (net t) b (req st) = (upds, Some e) ->
  turn b ctx t st
  = (st, [EvGetUpdates (req st) upds (Some e); EvError e;
          EvSleep (BackoffPeriod b)]).
Proof. intros Hd Hg. unfold turn. now rewrite Hd, Hg. Qed.

Lemma turn_succeeded (b : Bot) (ctx : Context) (t : Turn) (st : Poller)
    (upds : list (option Update)) :
  done_ready ctx t = false ->
  Bot_GetUpdates (net t) b (req st) = (upds, None) ->
  turn b ctx t st
  = (fst (range_updates (req st) upds),
     EvGetUpdates (req st) upds None :: snd (range_updates (req st) upds)).
Proof.
  intros Hd Hg. unfold turn. rewrite Hd, Hg.
  now destruct (range_updates (req st) upds).
Qed.

(** The three ways a turn can go. *)
Lemma turn_cases (b : Bot) (ctx : Context) (t : Turn) (st : Poller) :
  (done_ready ctx t = true)
  \/ (done_ready ctx t = false
      /\ exists upds e, Bot_GetUpdates (net t) b (req st) = (upds, Some e))
  \/ (done_ready ctx t = false
      /\ exists upds, Bot_GetUpdates (net t) b (req st) = (upds, None)).
Proof.
  destruct (done_ready ctx t); [now left | right].
  destruct (Bot_GetUpdates (net t) b (req st)) as [upds [e |]].
  - left. split; [reflexivity |]. now exists upds, e.
  - right. split; [reflexivity |]. now exists upds.
Qed.

End TurnProperties.

(* ===================================================================== *)
(** ** The goroutine *)
(* ===================================================================== *)

Section GoroutineProperties.
Context {UP : URLParser} {UO : Unmarshaler outerResponse}.
Context {MG : Marshaler GetUpdates} {UU : Unmarshaler (list (option Update))}.
Variables (b : Bot) (ctx : Context).

Lemma goroutine_not_running (turns : list Turn) (st : Poller) :
  status st <> Running -> goroutine b ctx turns st = (st, []).
Proof.
  intros Hs. destruct turns as [| t rest]; cbn; [reflexivity |].
  destruct (status st); congruence.
Qed.

Lemma goroutine_cons (t : Turn) (rest : list Turn) (st : Poller) :
  status st = Running ->
  goroutine b ctx (t :: rest) st
  = (fst (goroutine b ctx rest (fst (turn b ctx t st))),
     snd (turn b ctx t st)
     ++ snd (goroutine b ctx rest (fst (turn b ctx t st)))).
Proof.
  intros Hs. cbn. rewrite Hs.
  destruct (turn b ctx t st) as [st1 tr1]; cbn.
  now destruct (goroutine b ctx rest st1).
Qed.

(** Running on a script in two parts is running on the first part and
    then, from where that ended, on the second. *)
Lemma goroutine_app (turns1 turns2 : list Turn) :
  forall st,
    goroutine b ctx (turns1 ++ turns2) st
    = (fst (goroutine b ctx turns2 (fst (goroutine b ctx turns1 st))),
       snd (goroutine b ctx turns1 st)
       ++ snd (goroutine b ctx turns2 (fst (goroutine b ctx turns1 st)))).
Proof.
  induction turns1 as [| t rest IH]; intros st.
  - cbn. now destruct (goroutine b ctx turns2 st).
  - destruct (status st) eqn:Hs.
    + rewrite <- app_comm_cons, !goroutine_cons by assumption.
      rewrite IH. cbn [fst snd]. now rewrite app_assoc.
    + rewrite (goroutine_not_running ((t :: rest) ++ turns2) st),
        (goroutine_not_running (t :: rest) st) by congruence.
      cbn. rewrite goroutine_not_running by congruence. reflexivity.
    + rewrite (goroutine_not_running ((t :: rest) ++ turns2) st),
        (goroutine_not_running (t :: rest) st) by congruence.
      cbn. rewrite goroutine_not_running by congruence. reflexivity.
Qed.

(** What every turn preserves. *)
Lemma turn_inv (t : Turn) (st : Poller) :
  Timeout (req (fst (turn b ctx t st))) = Timeout (req st)
  /\ Forall (eq (req st)) (calls (snd (turn b ctx t st)))
  /\ (Forall id_below_max (snd (turn b ctx t st)) ->
      Offset (req st) <= Offset (req (fst (turn b ctx t st)))).
Proof.
  destruct (turn_cases b ctx t st)
    as [Hd | [[Hd [upds [e Hg]]] | [Hd [upds Hg]]]].
  - rewrite turn_cancelled by assumption. cbn. repeat split; [constructor | lia].
  - rewrite (turn_failed b ctx t st upds e) by assumption. cbn.
    repeat split; [repeat constructor | lia].
  - rewrite (turn_succeeded b ctx t st upds) by assumption. cbn [fst snd].
    destruct (range_updates_inv upds (req st)) as [Ht Ho].
    destruct (range_updates_emitted upds (req st))
      as (_ & _ & _ & Hc & _ & _).
    repeat split.
    + exact Ht.
    + change (calls (EvGetUpdates (req st) upds None
                       :: snd (range_updates (req st) upds)))
        with (req st :: calls (snd (range_updates (req st) upds))).
      rewrite Hc. repeat constructor.
    + intros Hf. inversion Hf; subst. auto.
Qed.

Lemma goroutine_inv (turns : list Turn) :
  forall st,
    Timeout (req (fst (goroutine b ctx turns st))) = Timeout (req st)
    /\ Forall (fun r => Timeout r = Timeout (req st))
              (calls (snd (goroutine b ctx turns st)))
    /\ (Forall id_below_max (snd (goroutine b ctx turns st)) ->
        Offset (req st) <= Offset (req (fst (goroutine b ctx turns st)))).
Proof.
  induction turns as [| t rest IH]; intros st.
  - cbn. repeat split; [constructor | lia].
  - destruct (status st) eqn:Hs.
    + rewrite goroutine_cons by assumption. cbn [fst snd].
      destruct (turn_inv t st) as (Ht & Hc & Ho).
      destruct (IH (fst (turn b ctx t st))) as (Ht' & Hc' & Ho').
      repeat split.
      * congruence.
      * rewrite calls_app. apply Forall_app. split.
        -- eapply Forall_impl; [| exact Hc]. now intros r <-.
        -- eapply Forall_impl; [| exact Hc']. intros r Hr. congruence.
      * intros Hf. apply Forall_app in Hf as [Hf1 Hf2].
        specialize (Ho Hf1). specialize (Ho' Hf2). lia.
    + rewrite goroutine_not_running by congruence. cbn.
      repeat split; [constructor | lia].
    + rewrite goroutine_not_running by congruence. cbn.
      repeat split; [constructor | lia].
Qed.

End GoroutineProperties.

(* ===================================================================== *)
(** ** The cursor *)
(* ===================================================================== *)

Section Cursor.
Context {UP : URLParser} {UO : Unmarshaler outerResponse}.
Context {MG : Marshaler GetUpdates} {UU : Unmarshaler (list (option Update))}.

(** C1 (amended).  In a turn whose long-poll call succeeds and returns a
    batch of updates whose identifiers i1..in are all below the largest
    [int64] (so that no [identifier + 1] wraps around), starting from any
    cursor c, the request's [Offset] after the batch is
    max(c, max(i1..in) + 1); after an empty batch it is c. *)
Theorem poll_success_cursor (b : Bot) (ctx : Context) (t : Turn)
    (st : Poller) (us : list Update) :
  done_ready ctx t = false ->
  Bot_GetUpdates (net t) b (req st) = (map Some us, None) ->
  Forall (fun u => MinInt64 <= Upd_ID u < MaxInt64) us ->
  Offset (req (fst (turn b ctx t st)))
  = match map Upd_ID us with
    | [] => Offset (req st)
    | i :: rest => Z.max (Offset (req st)) (max_id i rest + 1)
    end.
Proof.
  intros Hd Hg Hb.
  rewrite (turn_succeeded b ctx t st (map Some us)) by assumption.
  rewrite range_updates_Some. cbn [fst req].
  rewrite Offset_fold_advance by assumption.
  destruct us as [| u us]; cbn [map fold_left].
  - reflexivity.
  - apply fold_max_succ.
Qed.

(** C2.  Whatever the world does, every call of a polling session is made
    with the same timeout: 60 when the request handed to [PollUpdates]
    has a timeout of zero (unset) or less, and the request's own timeout
    otherwise. *)
Theorem PollUpdates_timeout (b : Bot) (ctx : option Context)
    (rq : GetUpdates) (turns : list Turn) :
  DefaultPollTimeout = 60
  /\ Forall (fun r => Timeout r = if Timeout rq <=? 0 then 60 else Timeout rq)
            (calls (snd (Bot_PollUpdates b ctx rq turns))).
Proof.
  split; [reflexivity |].
  unfold Bot_PollUpdates.
  match goal with
  | |- Forall _ (calls (snd (goroutine b ?c turns ?s))) =>
      destruct (goroutine_inv b c turns s) as (_ & Hc & _)
  end.
  eapply Forall_impl; [| exact Hc].
  intros r ->. cbn [req].
  destruct (Timeout rq <=? 0); reflexivity.
Qed.

(** C7 (amended).  As long as every update the session emits has an
    identifier below the largest [int64], the cursor never decreases: no
    assignment of the loop lowers it, it is at least its initial value at
    every point of the session, and at least what it was at any earlier
    point. *)
Theorem cursor_monotone (b : Bot) (ctx : Context)
    (turns1 turns2 : list Turn) (st : Poller) :
  Forall id_below_max (snd (goroutine b ctx (turns1 ++ turns2) st)) ->
  (forall rq u, In (EvUpdate (Some u))
                   (snd (goroutine b ctx (turns1 ++ turns2) st)) ->
                Offset rq <= Offset (advance rq u))
  /\ Offset (req st) <= Offset (req (fst (goroutine b ctx turns1 st)))
  /\ Offset (req (fst (goroutine b ctx turns1 st)))
     <= Offset (req (fst (goroutine b ctx (turns1 ++ turns2) st))).
Proof.
  intros Hf. split; [| split].
  - intros rq u Hin.
    rewrite Forall_forall in Hf. specialize (Hf _ Hin). cbn in Hf.
    rewrite Offset_advance by assumption. lia.
  - rewrite goroutine_app in Hf. cbn [snd] in Hf.
    apply Forall_app in Hf as [Hf1 _].
    now apply goroutine_inv.
  - rewrite goroutine_app in *. cbn [fst snd] in *.
    apply Forall_app in Hf as [_ Hf2].
    now apply goroutine_inv.
Qed.

End Cursor.

(* ===================================================================== *)
(** ** The two output channels *)
(* ===================================================================== *)

Section Channels.
Context {UP : URLParser} {UO : Unmarshaler outerResponse}.
Context {MG : Marshaler GetUpdates} {UU : Unmarshaler (list (option Update))}.

(** What a turn sends on the update channel, against what its call
    returned, and what it does to the channels. *)
Lemma turn_emitted (b : Bot) (ctx : Context) (t : Turn) (st : Poller) :
  status st = Running ->
  (exists rest, returned (snd (turn b ctx t st))
                = emitted (snd (turn b ctx t st)) ++ rest)
  /\ (status (fst (turn b ctx t st)) <> Panicked ->
      emitted (snd (turn b ctx t st)) = returned (snd (turn b ctx t st)))
  /\ (status (fst (turn b ctx t st)) = Panicked ->
      In None (returned (snd (turn b ctx t st))))
  /\ (status (fst (turn b ctx t st)) = Stopped ->
      done_ready ctx t = true)
  /\ (status (fst (turn b ctx t st)) <> Stopped ->
      filter is_close (snd (turn b ctx t st)) = []).
Proof.
  intros Hs.
  destruct (turn_cases b ctx t st)
    as [Hd | [[Hd [upds [e Hg]]] | [Hd [upds Hg]]]].
  - rewrite turn_cancelled by assumption. cbn.
    repeat split; try discriminate; try congruence. now exists [].
  - rewrite (turn_failed b ctx t st upds e) by assumption. cbn.
    repeat split; try congruence. now exists [].
  - rewrite (turn_succeeded b ctx t st upds) by assumption. cbn [fst snd].
    destruct (range_updates_emitted upds (req st))
      as (Hpre & Hrun & Hns & _ & Hret & Hcl).
    change (returned (EvGetUpdates (req st) upds None
                        :: snd (range_updates (req st) upds)))
      with (upds ++ returned (snd (range_updates (req st) upds))).
    change (emitted (EvGetUpdates (req st) upds None
                        :: snd (range_updates (req st) upds)))
      with (emitted (snd (range_updates (req st) upds))).
    rewrite Hret, app_nil_r. cbn [filter is_close].
    repeat split.
    + exact Hpre.
    + intros Hp.
      destruct (status (fst (range_updates (req st) upds))) eqn:E;
        try congruence.
      now rewrite Hrun.
    + intros Hp. destruct (batch_split upds) as [[us ->] | [us [rest ->]]].
      * rewrite range_updates_Some in Hp. discriminate.
      * apply in_or_app. right. now left.
    + intros Hst. congruence.
    + intros _. exact Hcl.
Qed.


End Channels.

(* ===================================================================== *)
(** ** Failure and cancellation *)
(* ===================================================================== *)

Section Lifecycle.
Context {UP : URLParser} {UO : Unmarshaler outerResponse}.
Context {MG : Marshaler GetUpdates} {UU : Unmarshaler (list (option Update))}.

Lemma failure_events_failed (b : Bot) (rq : GetUpdates) (t : Turn) :
  snd (Bot_GetUpdates (net t) b rq) <> None ->
  exists upds e,
    Bot_GetUpdates (net t) b rq = (upds, Some e)
    /\ failure_events b rq t
       = [EvGetUpdates rq upds (Some e); EvError e; EvSleep (BackoffPeriod b)].
Proof.
  intros Hf. unfold failure_events.
  destruct (Bot_GetUpdates (net t) b rq) as [upds [e |]]; cbn in Hf.
  - now exists upds, e.
  - congruence.
Qed.

(** C5.  Take any number of consecutive turns in which the context is not
    cancelled and the long-poll call fails.  Each of them does exactly
    this, in this order: the call, the error on the error channel, a
    sleep of the bot's backoff period.  The request, and with it the
    cursor, is left as it was and the goroutine stays in its loop: what
    it does on the turns that follow is what it would have done on them
    without the failures. *)
Theorem poll_failure_retries (b : Bot) (ctx : Context) (st : Poller)
    (fs rest : list Turn) :
  status st = Running ->
  Forall (fun t => done_ready ctx t = false
                   /\ snd (Bot_GetUpdates (net t) b (req st)) <> None) fs ->
  Forall (fun t => exists upds e,
              failure_events b (req st) t
              = [EvGetUpdates (req st) upds (Some e); EvError e;
                 EvSleep (BackoffPeriod b)]) fs
  /\ goroutine b ctx fs st = (st, flat_map (failure_events b (req st)) fs)
  /\ goroutine b ctx (fs ++ rest) st
     = (fst (goroutine b ctx rest st),
        flat_map (failure_events b (req st)) fs
        ++ snd (goroutine b ctx rest st)).
Proof.
  intros Hs Hfs.
  assert (Hrun : goroutine b ctx fs st
                 = (st, flat_map (failure_events b (req st)) fs)).
  { induction Hfs as [| t fs [Hd Hf] _ IH]; [reflexivity |].
    destruct (failure_events_failed b (req st) t Hf) as (upds & e & Hg & He).
    rewrite goroutine_cons by assumption.
    rewrite (turn_failed b ctx t st upds e) by assumption.
    cbn [fst snd flat_map]. rewrite IH, He. reflexivity. }
  split; [| split].
  - eapply Forall_impl; [| exact Hfs].
    intros t [_ Hf].
    destruct (failure_events_failed b (req st) t Hf) as (upds & e & _ & He).
    now exists upds, e.
  - exact Hrun.
  - rewrite goroutine_app, Hrun. reflexivity.
Qed.

Lemma goroutine_closes (b : Bot) (ctx : Context) (turns : list Turn) :
  forall st,
    status st = Running ->
    (status (fst (goroutine b ctx turns st)) = Stopped ->
     exists tr0,
       snd (goroutine b ctx turns st) = tr0 ++ [EvCloseUpdates; EvCloseErrors]
       /\ filter is_close tr0 = []
       /\ Exists (fun t => done_ready ctx t = true) turns)
    /\ (status (fst (goroutine b ctx turns st)) <> Stopped ->
        filter is_close (snd (goroutine b ctx turns st)) = []).
Proof.
  induction turns as [| t rest IH]; intros st Hs.
  - cbn. split; [congruence | reflexivity].
  - rewrite goroutine_cons by assumption. cbn [fst snd].
    destruct (turn_emitted b ctx t st Hs) as (_ & _ & _ & Hstop & Hcl).
    destruct (status (fst (turn b ctx t st))) eqn:E.
    + destruct (IH _ E) as [IH1 IH2]. split.
      * intros Hst. destruct (IH1 Hst) as (tr0 & -> & Hn & Hex).
        exists (snd (turn b ctx t st) ++ tr0). repeat split.
        -- now rewrite app_assoc.
        -- rewrite filter_app, Hn, Hcl by discriminate. reflexivity.
        -- now apply Exists_cons_tl.
      * intros Hst. rewrite filter_app, IH2, Hcl by (auto; discriminate).
        reflexivity.
    + rewrite goroutine_not_running by congruence. cbn [fst snd].
      rewrite app_nil_r. split; [| congruence].
      intros _. specialize (Hstop eq_refl).
      rewrite turn_cancelled in * by assumption. cbn.
      exists []. repeat split. now apply Exists_cons_hd.
    + rewrite goroutine_not_running by congruence. cbn [fst snd].
      rewrite app_nil_r. split; [congruence |].
      intros _. apply Hcl. discriminate.
Qed.

(** C6.  Whatever state the loop has reached, a turn that finds the
    context cancelled makes no call: it closes the update channel, then
    the error channel, and the goroutine returns.  A goroutine that has
    returned does nothing more, whatever the world offers.  So in a run
    that ends stopped, a turn found the context cancelled, the two closes
    are the last two events and the only closes, and extending the run
    changes nothing; in a run that does not end stopped, no channel is
    closed. *)
Theorem cancellation_closes_once (b : Bot) (ctx : Context)
    (turns : list Turn) (st : Poller) :
  status st = Running ->
  (forall t rest,
      done_ready ctx t = true ->
      goroutine b ctx (t :: rest) st
      = ({| req := req st; status := Stopped |},
         [EvCloseUpdates; EvCloseErrors]))
  /\ (forall st0 more,
         status st0 = Stopped -> goroutine b ctx more st0 = (st0, []))
  /\ (status (fst (goroutine b ctx turns st)) = Stopped ->
      (exists tr0,
          snd (goroutine b ctx turns st)
          = tr0 ++ [EvCloseUpdates; EvCloseErrors]
          /\ filter is_close tr0 = [])
      /\ Exists (fun t => done_ready ctx t = true) turns
      /\ forall more,
           goroutine b ctx (turns ++ more) st = goroutine b ctx turns st)
  /\ (status (fst (goroutine b ctx turns st)) <> Stopped ->
      filter is_close (snd (goroutine b ctx turns st)) = []).
Proof.
  intros Hs. split; [| split; [| split]].
  - intros t rest Hd.
    rewrite goroutine_cons, turn_cancelled by assumption. cbn [fst snd].
    rewrite goroutine_not_running by (cbn; congruence). reflexivity.
  - intros st0 more Hst. apply goroutine_not_running. congruence.
  - intros Hst.
    destruct (proj1 (goroutine_closes b ctx turns st Hs) Hst)
      as (tr0 & Htr & Hn & Hex).
    split; [now exists tr0 | split; [exact Hex |]].
    intros more. rewrite goroutine_app.
    rewrite (goroutine_not_running b ctx more) by congruence.
    cbn [fst snd]. rewrite app_nil_r.
    now destruct (goroutine b ctx turns st).
  - apply (goroutine_closes b ctx turns st Hs).
Qed.

End Lifecycle.

(* ===================================================================== *)
(** ** The one-shot call *)
(* ===================================================================== *)

Lemma append_assoc (s1 s2 s3 : string) :
  ((s1 ++ s2) ++ s3 = s1 ++ s2 ++ s3)%string.
Proof.
  induction s1 as [| a s1 IH]; cbn; [reflexivity | now rewrite IH].
Qed.

Lemma length_zero_eqb (s : string) :
  (String.length s =? 0)%nat = String.eqb s "".
Proof. now destruct s. Qed.

Section OneShot.
Context {UP : URLParser} {UO : Unmarshaler outerResponse}.
Context {Rq Rs : Type} {MRq : Marshaler Rq} {URs : Unmarshaler Rs}.

(** Interpreting an envelope adds at most decodings to the log. *)
Lemma interpret_log (res : Response) (o : outerResponse) (w : World Rs) :
  exists l,
    log (snd (Caller_interpret res o w)) = log w ++ l
    /\ (forall code outer, ~ In (EfEnvelope code outer) l)
    /\ sent l = []
    /\ invocations l = [].
Proof.
  unfold Caller_interpret, unmarshal_result, raise.
  destruct (negb (Ok o)).
  - exists []. destruct (String.length (Outer_Description o) =? 0)%nat;
      cbn; rewrite app_nil_r; auto.
  - destruct (target w) as [a |]; cbn.
    + destruct (json_Unmarshal (Result o) a) as [a' [m |]]; cbn;
        (eexists; split; [reflexivity |]); (repeat split; auto);
        intros code outer Hin; not_in_log Hin.
    + exists []. rewrite app_nil_r. auto.
Qed.

Lemma snd_run_from (m : M (World Rs) unit) (w : World Rs) :
  snd (run_from m w) = snd (m w).
Proof. unfold run_from. now destruct (m w) as [[e | u] w']. Qed.

(** The envelope found in the log of an interpretation is the one it was
    started on. *)
Lemma envelope_in_log (res : Response) (o : outerResponse)
    (cl : Client) (name : string) (rq : Request) (response : option Rs)
    (code : Z) (outer : outerResponse) :
  In (EfEnvelope code outer)
     (log (snd (run_from (Caller_interpret res o)
                  {| log := [EfRPC cl name; EfSend cl rq;
                             EfEnvelope (StatusCode res) o];
                     target := response |}))) ->
  StatusCode res = code /\ o = outer.
Proof.
  rewrite snd_run_from.
  destruct (interpret_log res o
              {| log := [EfRPC cl name; EfSend cl rq;
                         EfEnvelope (StatusCode res) o];
                 target := response |}) as (l & -> & Hl & _).
  cbn [log]. intros Hin. apply in_app_or in Hin as [Hin | Hin].
  - not_in_log Hin. now injection Hin.
  - now destruct (Hl _ _ Hin).
Qed.

(** When [do] has decoded an envelope, it has sent one request, the
    envelope is that of the response to it, and what remains is the
    interpretation of the envelope. *)
Lemma do_reaches_envelope (n : Network) (c : Caller) (cl : Client)
    (name : string) (request : option Rq) (response : option Rs)
    (code : Z) (outer : outerResponse) :
  In (EfEnvelope code outer)
     (log (snd (run_call (Caller_do n c cl name request) response))) ->
  exists rq res,
    n cl rq = inr res
    /\ StatusCode res = code
    /\ json_Unmarshal (Response_Body res) zero_outerResponse = (outer, None)
    /\ run_call (Caller_do n c cl name request) response
       = run_from (Caller_interpret res outer)
           {| log := [EfRPC cl name; EfSend cl rq; EfEnvelope code outer];
              target := response |}.
Proof.
  run_do.
  destruct request as [rq |].
  - destruct (json_Marshal rq) as [m | buf]; cbn.
    { intros Hin; not_in_log Hin. }
    destruct (url_Parse (prefix c ++ name)) as [m |]; cbn.
    { intros Hin; not_in_log Hin. }
    match goal with
    | |- context [n cl ?r] => destruct (n cl r) as [m | res] eqn:Hnet
    end; cbn.
    { intros Hin; not_in_log Hin. }
    destruct (json_Unmarshal (Response_Body res) zero_outerResponse)
      as [o [m |]] eqn:Hdec; cbn.
    { intros Hin; not_in_log Hin. }
    intros Hin.
    apply (envelope_in_log res o cl name _ response) in Hin as [<- <-].
    do 2 eexists. repeat split; eassumption || reflexivity.
  - destruct (url_Parse (prefix c ++ name)) as [m |]; cbn.
    { intros Hin; not_in_log Hin. }
    match goal with
    | |- context [n cl ?r] => destruct (n cl r) as [m | res] eqn:Hnet
    end; cbn.
    { intros Hin; not_in_log Hin. }
    destruct (json_Unmarshal (Response_Body res) zero_outerResponse)
      as [o [m |]] eqn:Hdec; cbn.
    { intros Hin; not_in_log Hin. }
    intros Hin.
    apply (envelope_in_log res o cl name _ response) in Hin as [<- <-].
    do 2 eexists. repeat split; eassumption || reflexivity.
Qed.

(** The invocations and the requests in the log of one [do]: one
    invocation; no request when the payload does not marshal or the URL
    does not parse, and otherwise the one request built. *)
Lemma do_effects (n : Network) (c : Caller) (cl : Client)
    (name : string) (request : option Rq) (response : option Rs) :
  invocations (log (snd (run_call (Caller_do n c cl name request) response)))
  = [(cl, name)]
  /\ sent (log (snd (run_call (Caller_do n c cl name request) response)))
     = match request with
       | Some rq =>
           match json_Marshal rq, url_Parse (prefix c ++ name) with
           | inr buf, None =>
               [(cl, {| Method := "POST"; URL := prefix c ++ name;
                        Body := Some buf;
                        Header := [("Content-Type", "application/json")] |})]
           | _, _ => []
           end
       | None =>
           match url_Parse (prefix c ++ name) with
           | None =>
               [(cl, {| Method := "GET"; URL := prefix c ++ name;
                        Body := None; Header := [] |})]
           | Some _ => []
           end
       end.
Proof.
  assert (Htail : forall (res : Response) (o : outerResponse) (rq : Request),
    let w := run_from (Caller_interpret res o)
               {| log := [EfRPC cl name; EfSend cl rq;
                          EfEnvelope (StatusCode res) o];
                  target := response |} in
    invocations (log (snd w)) = [(cl, name)]
    /\ sent (log (snd w)) = [(cl, rq)]).
  { intros res o rq w. unfold w. rewrite snd_run_from.
    destruct (interpret_log res o
                {| log := [EfRPC cl name; EfSend cl rq;
                           EfEnvelope (StatusCode res) o];
                   target := response |}) as (l & -> & _ & Hs & Hi).
    cbn [log]. unfold invocations, sent in *.
    rewrite !flat_map_app, Hs, Hi. cbn. auto. }
  run_do.
  destruct request as [rq |].
  - destruct (json_Marshal rq) as [m | buf]; cbn; [auto |].
    destruct (url_Parse (prefix c ++ name)) as [m |]; cbn; [auto |].
    match goal with
    | |- context [n cl ?r] => destruct (n cl r) as [m | res]
    end; cbn; [auto |].
    destruct (json_Unmarshal (Response_Body res) zero_outerResponse)
      as [o [m |]]; cbn; [auto |].
    apply Htail.
  - destruct (url_Parse (prefix c ++ name)) as [m |]; cbn; [auto |].
    match goal with
    | |- context [n cl ?r] => destruct (n cl r) as [m | res]
    end; cbn; [auto |].
    destruct (json_Unmarshal (Response_Body res) zero_outerResponse)
      as [o [m |]]; cbn; [auto |].
    apply Htail.
Qed.

(** C4.  Whenever an invocation of [do] has decoded a response envelope
    (the envelope of the response the network gave to the request sent,
    with that response's status code), then: if the envelope's flag is
    false, the call returns an [*Error] with that status code and the
    envelope's description, or "undefined error" when the description is
    empty, the raw result is never handed to the decoder and the target
    is untouched; if the flag is true and [response] is not nil, the raw
    result is decoded into the target, once, and the call returns the
    decoder's error exactly when the decoder fails; if the flag is true
    and [response] is nil, nothing is decoded and the call succeeds. *)
Theorem do_interprets_envelope (n : Network) (c : Caller) (cl : Client)
    (name : string) (request : option Rq) (response : option Rs)
    (code : Z) (outer : outerResponse) :
  In (EfEnvelope code outer)
     (log (snd (run_call (Caller_do n c cl name request) response))) ->
  (exists rq res,
      n cl rq = inr res
      /\ StatusCode res = code
      /\ json_Unmarshal (Response_Body res) zero_outerResponse = (outer, None))
  /\ (Ok outer = false ->
      fst (run_call (Caller_do n c cl name request) response)
      = Some (ApiError
                {| HTTPCode := code;
                   Description :=
                     if String.eqb (Outer_Description outer) ""
                     then "undefined error"
                     else Outer_Description outer |})
      /\ unmarshalled
           (log (snd (run_call (Caller_do n c cl name request) response))) = []
      /\ target (snd (run_call (Caller_do n c cl name request) response))
         = response)
  /\ (Ok outer = true ->
      match response with
      | Some a =>
          unmarshalled
            (log (snd (run_call (Caller_do n c cl name request) response)))
          = [Result outer]
          /\ target (snd (run_call (Caller_do n c cl name request) response))
             = Some (fst (json_Unmarshal (Result outer) a))
          /\ fst (run_call (Caller_do n c cl name request) response)
             = option_map LibError (snd (json_Unmarshal (Result outer) a))
      | None =>
          unmarshalled
            (log (snd (run_call (Caller_do n c cl name request) response))) = []
          /\ target (snd (run_call (Caller_do n c cl name request) response))
             = None
          /\ fst (run_call (Caller_do n c cl name request) response) = None
      end).
Proof.
  intros Hin.
  destruct (do_reaches_envelope _ _ _ _ _ _ _ _ Hin)
    as (rq & res & Hnet & Hcode & Hdec & ->).
  split; [now exists rq, res |].
  unfold run_from, Caller_interpret, unmarshal_result, raise.
  rewrite length_zero_eqb.
  split; intros Hflag; rewrite Hflag; cbn [negb].
  - destruct (String.eqb (Outer_Description outer) ""); cbn;
      rewrite Hcode; auto.
  - destruct response as [a |]; cbn [target].
    + destruct (json_Unmarshal (Result outer) a) as [a' [m |]]; cbn; auto.
    + cbn. auto.
Qed.

(** C8.  The URL of a caller made by [NewCaller] is the endpoint, the
    token, a slash and the method name.  A request that [do] sends for a
    nil payload is a GET of that URL, without body and with an empty
    header (so without content type); a request it sends for a payload
    is a POST of that URL whose body is the payload's JSON encoding and
    whose content type is application/json.  [do] sends at most one
    request, and does send it when the URL parses and, if there is a
    payload, the payload marshals. *)
Theorem do_request_shape (n : Network) (endpoint token : string)
    (cl : Client) (name : string) (request : option Rq)
    (response : option Rs) :
  (forall cl' r,
      In (cl', r)
         (sent (log (snd (run_call
            (Caller_do n (NewCaller endpoint token) cl name request)
            response)))) ->
      cl' = cl
      /\ URL r = (endpoint ++ token ++ "/" ++ name)%string
      /\ match request with
         | None =>
             Method r = "GET" /\ Body r = None /\ Header r = []
             /\ Header_Get (Header r) "Content-Type" = None
         | Some rq =>
             Method r = "POST"
             /\ (exists buf, json_Marshal rq = inr buf /\ Body r = Some buf)
             /\ Header_Get (Header r) "Content-Type" = Some "application/json"
         end)
  /\ (url_Parse (endpoint ++ token ++ "/" ++ name)%string = None ->
      match request with
      | None =>
          sent (log (snd (run_call
            (Caller_do n (NewCaller endpoint token) cl name request)
            response)))
          = [(cl, {| Method := "GET";
                     URL := (endpoint ++ token ++ "/" ++ name)%string;
                     Body := None; Header := [] |})]
      | Some rq =>
          forall buf,
            json_Marshal rq = inr buf ->
            sent (log (snd (run_call
              (Caller_do n (NewCaller endpoint token) cl name request)
              response)))
            = [(cl, {| Method := "POST";
                       URL := (endpoint ++ token ++ "/" ++ name)%string;
                       Body := Some buf;
                       Header := [("Content-Type", "application/json")] |})]
      end).
Proof.
  destruct (do_effects n (NewCaller endpoint token) cl name request response)
    as [_ Hsent].
  rewrite Hsent. clear Hsent.
  assert (Hurl : (prefix (NewCaller endpoint token) ++ name
                  = endpoint ++ token ++ "/" ++ name)%string).
  { cbn [prefix NewCaller]. now rewrite !append_assoc. }
  rewrite Hurl. split.
  - intros cl' r Hin. destruct request as [rq |].
    + destruct (json_Marshal rq) as [m | buf] eqn:Hm; [destruct Hin |].
      destruct (url_Parse (endpoint ++ token ++ "/" ++ name)%string);
        [destruct Hin |].
      destruct Hin as [Heq | []]. injection Heq as <- <-. cbn.
      repeat split. now exists buf.
    + destruct (url_Parse (endpoint ++ token ++ "/" ++ name)%string);
        [destruct Hin |].
      destruct Hin as [Heq | []]. injection Heq as <- <-. cbn.
      repeat split.
  - intros Hok. rewrite Hok. destruct request as [rq |].
    + intros buf ->. reflexivity.
    + reflexivity.
Qed.

End OneShot.

(* ===================================================================== *)
(** ** Construction of a bot *)
(* ===================================================================== *)

Section Bootstrap.
Context {UP : URLParser} {UO : Unmarshaler outerResponse}.
Context {UM : Unmarshaler User}.

(** C9.  [NewBot] makes exactly one call, the [getMe] lookup without
    payload on the standard client of a caller for the Telegram endpoint
    and the token, which sends at most one request, a GET of
    [https://api.telegram.org/bot<token>/getMe]; and the error [NewBot]
    returns is the error of that call: it is nil exactly when the call
    succeeds. *)
Theorem NewBot_verifies_once (n : Network) (token : string) :
  invocations (snd (NewBot n token))
  = [(client (NewCaller EndpointURL token), "getMe")]
  /\ snd (fst (NewBot n token))
     = fst (run_call
              (Caller_Call n (NewCaller EndpointURL token) "getMe"
                 (@None NoRequest))
              (Some zero_User))
  /\ (snd (fst (NewBot n token)) = None
      <-> fst (run_call
                 (Caller_Call n (NewCaller EndpointURL token) "getMe"
                    (@None NoRequest))
                 (Some zero_User)) = None)
  /\ (List.length (sent (snd (NewBot n token))) <= 1)%nat
  /\ (forall cl r,
         In (cl, r) (sent (snd (NewBot n token))) ->
         cl = {| Client_Timeout := 10 * Second |}
         /\ Method r = "GET"
         /\ URL r = ("https://api.telegram.org/bot" ++ token ++ "/getMe")%string
         /\ Body r = None)
  /\ caller (fst (fst (NewBot n token))) = NewCaller EndpointURL token
  /\ BackoffPeriod (fst (fst (NewBot n token))) = 5 * Second.
Proof.
  unfold NewBot, Bot_GetMe. cbn [caller BackoffPeriod].
  destruct (do_effects n (NewCaller EndpointURL token)
              (client (NewCaller EndpointURL token)) "getMe"
              (@None NoRequest) (Some zero_User)) as [Hinv Hsent].
  unfold Caller_Call.
  destruct (run_call
              (Caller_do n (NewCaller EndpointURL token)
                 (client (NewCaller EndpointURL token)) "getMe" None)
              (Some zero_User)) as [err w] eqn:Hrun.
  cbn [fst snd] in *. rewrite Hinv, Hsent. clear Hinv Hsent Hrun.
  assert (Hurl : (prefix (NewCaller EndpointURL token) ++ "getMe"
                  = "https://api.telegram.org/bot" ++ token ++ "/getMe")%string).
  { cbn [prefix NewCaller]. now rewrite !append_assoc. }
  rewrite Hurl.
  assert (Hin : forall cl r,
             In (cl, r)
                match url_Parse
                        ("https://api.telegram.org/bot" ++ token ++ "/getMe")
                with
                | Some _ => []
                | None =>
                    [(client (NewCaller EndpointURL token),
                      {| Method := "GET";
                         URL := ("https://api.telegram.org/bot" ++ token
                                 ++ "/getMe")%string;
                         Body := None; Header := [] |})]
                end ->
             cl = {| Client_Timeout := 10 * Second |}
             /\ Method r = "GET"
             /\ URL r = ("https://api.telegram.org/bot" ++ token
                         ++ "/getMe")%string
             /\ Body r = None).
  { intros cl r.
    destruct (url_Parse ("https://api.telegram.org/bot" ++ token ++ "/getMe"));
      intros Hin; [destruct Hin |].
    destruct Hin as [Heq | []]. injection Heq as <- <-. auto. }
  repeat split; auto; try (intros; now apply (Hin cl r)).
  destruct (url_Parse ("https://api.telegram.org/bot" ++ token ++ "/getMe"));
    cbn; lia.
Qed.

End Bootstrap.

(* ===================================================================== *)
(** ** The properties at work in the small world *)
(* ===================================================================== *)

(** Scenario: batch 5, 7 from cursor 0: the cursor becomes 8. *)
Lemma poll_success_cursor_witness :
  Offset (req (fst (Sim.step Sim.bot Background Sim.turn_5_7 (Sim.running 0))))
  = 8.
Proof.
  apply (@poll_success_cursor Sim.parser Sim.envelope Sim.request Sim.batch
           Sim.bot Background Sim.turn_5_7 (Sim.running 0)
           [Sim.update 5; Sim.update 7]).
  - reflexivity.
  - reflexivity.
  - repeat constructor; cbn; unfold MinInt64, MaxInt64; lia.
Defined.

(** C1 as stated fails when an identifier is the largest [int64]: the
    call succeeds with one update of identifier 2^63 - 1, the cursor was
    0, and the cursor becomes -2^63 and not max(0, (2^63 - 1) + 1). *)
Lemma poll_success_cursor_overflow :
  done_ready Background Sim.turn_max = false
  /\ Sim.getUpdates (net Sim.turn_max) Sim.bot (req (Sim.running 0))
     = (map Some [Sim.update MaxInt64], None)
  /\ int64 (Upd_ID (Sim.update MaxInt64))
  /\ Offset (req (fst (Sim.step Sim.bot Background Sim.turn_max
                         (Sim.running 0))))
     = MinInt64
  /\ Offset (req (fst (Sim.step Sim.bot Background Sim.turn_max
                         (Sim.running 0))))
     <> Z.max (Offset (req (Sim.running 0))) (max_id MaxInt64 [] + 1).
Proof.
  repeat split; try reflexivity; vm_compute; discriminate.
Qed.

(** The cursor of a session that sees updates 5 and 7 twice. *)
Lemma cursor_monotone_witness :
  Offset (req (fst (Sim.run Sim.bot Background [Sim.turn_5_7] (Sim.running 0))))
  <= Offset (req (fst (Sim.run Sim.bot Background
                         ([Sim.turn_5_7] ++ [Sim.turn_down; Sim.turn_5_7])
                         (Sim.running 0)))).
Proof.
  apply (@cursor_monotone Sim.parser Sim.envelope Sim.request Sim.batch
           Sim.bot Background [Sim.turn_5_7] [Sim.turn_down; Sim.turn_5_7]
           (Sim.running 0)).
  match goal with
  | |- Forall _ ?tr =>
      let v := eval vm_compute in tr in change (Forall id_below_max v)
  end.
  repeat (apply Forall_cons;
          [cbn; first [exact I | unfold MinInt64, MaxInt64; lia] |]).
  apply Forall_nil.
Defined.

(** C7 as stated fails when an identifier is the largest [int64]: a
    session started with cursor 10 receives the update of identifier
    2^63 - 1 and its cursor falls to -2^63. *)
Lemma cursor_decreases_on_overflow :
  calls (snd (Sim.poll Sim.bot None
                {| Offset := 10; Limit := 0; Timeout := 60;
                   AllowedUpdates := [] |} [Sim.turn_max]))
  = [{| Offset := 10; Limit := 0; Timeout := 60; AllowedUpdates := [] |}]
  /\ returned (snd (Sim.poll Sim.bot None
                      {| Offset := 10; Limit := 0; Timeout := 60;
                         AllowedUpdates := [] |} [Sim.turn_max]))
     = [Some (Sim.update MaxInt64)]
  /\ int64 (Upd_ID (Sim.update MaxInt64))
  /\ Offset (req (fst (Sim.poll Sim.bot None
                         {| Offset := 10; Limit := 0; Timeout := 60;
                            AllowedUpdates := [] |} [Sim.turn_max])))
     = MinInt64
  /\ Offset (advance {| Offset := 10; Limit := 0; Timeout := 60;
                        AllowedUpdates := [] |} (Sim.update MaxInt64))
     < Offset {| Offset := 10; Limit := 0; Timeout := 60;
                 AllowedUpdates := [] |}.
Proof.
  repeat split; try reflexivity; vm_compute; discriminate.
Qed.



(** Scenario: the remote declares a failure with an empty description:
    the error carries "undefined error" and the HTTP status. *)
Lemma do_interprets_envelope_witness :
  fst (run_call
         (@Caller_do Sim.parser Sim.envelope GetUpdates
            (list (option Update)) Sim.request Sim.batch
            (Sim.answers 401 [Byte.x00]) (caller Sim.bot)
            (pollClient (caller Sim.bot)) "getUpdates"
            (Some Sim.request0))
         (Some []))
  = Some (ApiError {| HTTPCode := 401; Description := "undefined error" |}).
Proof.
  refine (proj1 (proj1 (proj2
    (@do_interprets_envelope Sim.parser Sim.envelope GetUpdates
       (list (option Update)) Sim.request Sim.batch
       (Sim.answers 401 [Byte.x00]) (caller Sim.bot)
       (pollClient (caller Sim.bot)) "getUpdates" (Some Sim.request0)
       (Some []) 401
       {| Ok := false; Result := []; Outer_Description := "" |} _)) _)).
  - vm_compute. right. right. left. reflexivity.
  - reflexivity.
Defined.

(** Two outages in a row, then a batch: the outages leave the poller as
    it was. *)
Lemma poll_failure_retries_witness :
  Sim.run Sim.bot Background [Sim.turn_down; Sim.turn_refused] (Sim.running 0)
  = (Sim.running 0,
     flat_map (@failure_events Sim.parser Sim.envelope Sim.request Sim.batch
                 Sim.bot (req (Sim.running 0)))
       [Sim.turn_down; Sim.turn_refused]).
Proof.
  refine (proj1 (proj2
    (@poll_failure_retries Sim.parser Sim.envelope Sim.request Sim.batch
       Sim.bot Background (Sim.running 0) [Sim.turn_down; Sim.turn_refused]
       [Sim.turn_5_7] _ _))).
  - reflexivity.
  - repeat (apply Forall_cons; [split; [reflexivity | vm_compute; discriminate] |]).
    apply Forall_nil.
Defined.

(** Scenario: a batch, then cancellation: the session ends with the two
    closes, and whatever is offered afterwards changes nothing. *)
Lemma cancellation_closes_once_witness :
  Sim.run Sim.bot Cancellable
    ([Sim.turn_5_7; Sim.turn_cancelled] ++ [Sim.turn_5_7; Sim.turn_down])
    (Sim.running 0)
  = Sim.run Sim.bot Cancellable [Sim.turn_5_7; Sim.turn_cancelled]
      (Sim.running 0).
Proof.
  refine (proj2 (proj2 (proj1 (proj2 (proj2
    (@cancellation_closes_once Sim.parser Sim.envelope Sim.request Sim.batch
       Sim.bot Cancellable [Sim.turn_5_7; Sim.turn_cancelled]
       (Sim.running 0) _))) _)) [Sim.turn_5_7; Sim.turn_down]).
  - reflexivity.
  - reflexivity.
Defined.

(** Scenario: a call without payload is a GET without body or header. *)
Lemma do_request_shape_witness :
  sent (log (snd (run_call
         (@Caller_do Sim.parser Sim.envelope NoRequest User
            Marshaler_NoRequest Sim.user
            (Sim.answers 200 [Byte.x01; Byte.x09])
            (NewCaller "https://api.telegram.org/bot" "TOKEN")
            {| Client_Timeout := 10 * Second |} "getMe" None)
         (Some zero_User))))
  = [({| Client_Timeout := 10 * Second |},
      {| Method := "GET";
         URL := "https://api.telegram.org/botTOKEN/getMe";
         Body := None; Header := [] |})].
Proof.
  refine (proj2
    (@do_request_shape Sim.parser Sim.envelope NoRequest User
       Marshaler_NoRequest Sim.user (Sim.answers 200 [Byte.x01; Byte.x09])
       "https://api.telegram.org/bot" "TOKEN"
       {| Client_Timeout := 10 * Second |} "getMe" None (Some zero_User)) _).
  reflexivity.
Defined.

(** A bot is constructed without error when the lookup succeeds. *)
Lemma NewBot_verifies_once_witness :
  snd (fst (Sim.newBot (Sim.answers 200 [Byte.x01; Byte.x09]) "TOKEN")) = None.
Proof.
  refine (proj2 (proj1 (proj2 (proj2
    (@NewBot_verifies_once Sim.parser Sim.envelope Sim.user
       (Sim.answers 200 [Byte.x01; Byte.x09]) "TOKEN")))) _).
  reflexivity.
Defined.

(** A batch with a null entry: the updates before it and the null are
    sent, the cursor has moved past the first update, and the goroutine
    panics on the null. *)
Example poll_null_entry :
  Sim.run Sim.bot Background [Sim.turn_null; Sim.turn_5_7] (Sim.running 0)
  = ({| req := {| Offset := 6; Limit := 0; Timeout := 60;
                  AllowedUpdates := [] |};
        status := Panicked |},
     [EvGetUpdates (req (Sim.running 0))
        [Some (Sim.update 5); None; Some (Sim.update 7)] None;
      EvUpdate (Some (Sim.update 5)); EvUpdate None; EvPanic]).
Proof. reflexivity. Qed.

(** The request of a poll: a POST of the encoded poll request, on the
    long-poll client. *)
Example poll_request_is_post :
  sent (log (snd (run_call
         (@Caller_Poll Sim.parser Sim.envelope GetUpdates
            (list (option Update)) Sim.request Sim.batch
            Sim.down (caller Sim.bot) "getUpdates"
            (Some (req (Sim.running 0))))
         (Some []))))
  = [({| Client_Timeout := 5 * Minute |},
      {| Method := "POST";
         URL := "https://api.telegram.org/botTOKEN/getUpdates";
         Body := Some [Byte.x3c];
         Header := [("Content-Type", "application/json")] |})].
Proof. reflexivity. Qed.

(** A token with a line feed: the URL does not parse, nothing is sent,
    and the construction fails. *)
Example NewBot_bad_token :
  Sim.newBot (Sim.answers 200 [Byte.x01; Byte.x09])
    (String (Ascii.ascii_of_nat 10) "TOKEN")
  = (({| Self := Some zero_User; BackoffPeriod := 5 * Second;
         caller := NewCaller EndpointURL
                     (String (Ascii.ascii_of_nat 10) "TOKEN") |},
      Some (LibError "net/url: invalid control character in URL")),
     [EfRPC {| Client_Timeout := 10 * Second |} "getMe"]).
Proof. reflexivity. Qed.

(* ===================================================================== *)
(** ** The failure paths of the one-shot call *)
(* ===================================================================== *)

Section OneShotOutcomes.
Context {UP : URLParser} {UO : Unmarshaler outerResponse}.
Context {Rq Rs : Type} {MRq : Marshaler Rq} {URs : Unmarshaler Rs}.

(** What [do] makes of a decoded envelope, written out. *)
Lemma interpret_outcome (res : Response) (outer : outerResponse)
    (l : list Effect) (response : option Rs) :
  run_from (Caller_interpret res outer) {| log := l; target := response |}
  = if Ok outer then
      match response with
      | Some a =>
          (option_map LibError (snd (json_Unmarshal (Result outer) a)),
           {| log := l ++ [EfUnmarshal (Result outer)];
              target := Some (fst (json_Unmarshal (Result outer) a)) |})
      | None => (None, {| log := l; target := None |})
      end
    else
      (Some (ApiError
               {| HTTPCode := StatusCode res;
                  Description :=
                    if String.eqb (Outer_Description outer) ""
                    then "undefined error"
                    else Outer_Description outer |}),
       {| log := l; target := response |}).
Proof.
  unfold run_from, Caller_interpret, unmarshal_result, raise.
  rewrite length_zero_eqb.
  destruct (Ok outer); cbn [negb].
  - destruct response as [a |]; cbn [target log].
    + now destruct (json_Unmarshal (Result outer) a) as [a' [m |]].
    + reflexivity.
  - now destruct (String.eqb (Outer_Description outer) "").
Qed.

(** The two ways an invocation of [do] can go: it fails with a library
    error before any envelope is decoded, or it decodes the envelope of
    the response to the request it sent and interprets it. *)
Lemma do_outcome (n : Network) (c : Caller) (cl : Client)
    (name : string) (request : option Rq) (response : option Rs) :
  (exists msg,
      fst (run_call (Caller_do n c cl name request) response)
      = Some (LibError msg)
      /\ target (snd (run_call (Caller_do n c cl name request) response))
         = response
      /\ (forall code outer,
             ~ In (EfEnvelope code outer)
                  (log (snd (run_call (Caller_do n c cl name request)
                               response))))
      /\ unmarshalled
           (log (snd (run_call (Caller_do n c cl name request) response)))
         = [])
  \/ (exists rq res outer,
         n cl rq = inr res
         /\ json_Unmarshal (Response_Body res) zero_outerResponse
            = (outer, None)
         /\ run_call (Caller_do n c cl name request) response
            = run_from (Caller_interpret res outer)
                {| log := [EfRPC cl name; EfSend cl rq;
                           EfEnvelope (StatusCode res) outer];
                   target := response |}).
Proof.
  run_do.
  destruct request as [rq |].
  - destruct (json_Marshal rq) as [m | buf]; cbn.
    { fails_early. }
    destruct (url_Parse (prefix c ++ name)) as [m |]; cbn.
    { fails_early. }
    match goal with
    | |- context [n cl ?r] => destruct (n cl r) as [m | res] eqn:Hnet
    end; cbn.
    { fails_early. }
    destruct (json_Unmarshal (Response_Body res) zero_outerResponse)
      as [o [m |]] eqn:Hdec; cbn.
    { fails_early. }
    right. do 3 eexists. repeat split; eassumption || reflexivity.
  - destruct (url_Parse (prefix c ++ name)) as [m |]; cbn.
    { fails_early. }
    match goal with
    | |- context [n cl ?r] => destruct (n cl r) as [m | res] eqn:Hnet
    end; cbn.
    { fails_early. }
    destruct (json_Unmarshal (Response_Body res) zero_outerResponse)
      as [o [m |]] eqn:Hdec; cbn.
    { fails_early. }
    right. do 3 eexists. repeat split; eassumption || reflexivity.
Qed.

End OneShotOutcomes.

Section OneShotErrors.
Context {UP : URLParser} {UO : Unmarshaler outerResponse}.
Context {Rq Rs : Type} {MRq : Marshaler Rq} {URs : Unmarshaler Rs}.

(** X1.  [do] returns an [*Error] exactly when it has decoded an envelope
    whose flag is false, and then the error carries the status code of
    the response and the envelope's description, "undefined error" for an
    empty one; so the message of such an error is never empty, the target
    is left as it was and nothing was decoded into it. *)
Theorem do_api_error_iff (n : Network) (c : Caller) (cl : Client)
    (name : string) (request : option Rq) (response : option Rs)
    (e : Error) :
  (fst (run_call (Caller_do n c cl name request) response)
   = Some (ApiError e)
   <-> exists code outer,
         In (EfEnvelope code outer)
            (log (snd (run_call (Caller_do n c cl name request) response)))
         /\ Ok outer = false
         /\ e = {| HTTPCode := code;
                   Description :=
                     if String.eqb (Outer_Description outer) ""
                     then "undefined error"
                     else Outer_Description outer |})
  /\ (fst (run_call (Caller_do n c cl name request) response)
      = Some (ApiError e) ->
      Error_Error (ApiError e) <> ""
      /\ target (snd (run_call (Caller_do n c cl name request) response))
         = response
      /\ unmarshalled
           (log (snd (run_call (Caller_do n c cl name request) response)))
         = []).
Proof.
  assert (Hfwd :
    fst (run_call (Caller_do n c cl name request) response)
    = Some (ApiError e) ->
    exists code outer,
      In (EfEnvelope code outer)
         (log (snd (run_call (Caller_do n c cl name request) response)))
      /\ Ok outer = false
      /\ e = {| HTTPCode := code;
                Description :=
                  if String.eqb (Outer_Description outer) ""
                  then "undefined error"
                  else Outer_Description outer |}
      /\ target (snd (run_call (Caller_do n c cl name request) response))
         = response
      /\ unmarshalled
           (log (snd (run_call (Caller_do n c cl name request) response)))
         = []).
  { destruct (do_outcome n c cl name request response)
      as [(msg & -> & _) | (rq & res & outer & Hnet & Hdec & ->)];
      [discriminate |].
    rewrite interpret_outcome.
    destruct (Ok outer) eqn:Hok.
    - destruct response as [a |]; cbn; [| discriminate].
      destruct (snd (json_Unmarshal (Result outer) a)); discriminate.
    - cbn. intros Heq. injection Heq as <-.
      exists (StatusCode res), outer. repeat split; auto. }
  split; [split |].
  - intros Herr. destruct (Hfwd Herr) as (code & outer & ? & ? & ? & _).
    now exists code, outer.
  - intros (code & outer & Hin & Hok & ->).
    destruct (do_reaches_envelope _ _ _ _ _ _ _ _ Hin)
      as (rq & res & _ & Hcode & _ & ->).
    rewrite interpret_outcome, Hok, Hcode. reflexivity.
  - intros Herr.
    destruct (Hfwd Herr) as (code & outer & _ & _ & -> & Ht & Hu).
    repeat split; auto. cbn.
    destruct (String.eqb_spec (Outer_Description outer) ""); congruence.
Qed.

(** X2.  [do] returns nil exactly when it has decoded an envelope whose
    flag is true and, if there is a target, the decoder has accepted the
    raw result for it. *)
Theorem do_success_iff (n : Network) (c : Caller) (cl : Client)
    (name : string) (request : option Rq) (response : option Rs) :
  fst (run_call (Caller_do n c cl name request) response) = None
  <-> exists code outer,
        In (EfEnvelope code outer)
           (log (snd (run_call (Caller_do n c cl name request) response)))
        /\ Ok outer = true
        /\ match response with
           | Some a => snd (json_Unmarshal (Result outer) a) = None
           | None => True
           end.
Proof.
  split.
  - destruct (do_outcome n c cl name request response)
      as [(msg & -> & _) | (rq & res & outer & Hnet & Hdec & ->)];
      [discriminate |].
    rewrite interpret_outcome.
    destruct (Ok outer) eqn:Hok; [| discriminate].
    intros Hnil. exists (StatusCode res), outer.
    destruct response as [a |]; cbn in *.
    + repeat split; auto.
      now destruct (snd (json_Unmarshal (Result outer) a)).
    + auto.
  - intros (code & outer & Hin & Hok & Hdec).
    destruct (do_reaches_envelope _ _ _ _ _ _ _ _ Hin)
      as (rq & res & _ & _ & _ & ->).
    rewrite interpret_outcome, Hok.
    destruct response as [a |]; cbn; [now rewrite Hdec | reflexivity].
Qed.

(** X3.  The target of a call is written by the decoding of an accepted
    envelope's result and by nothing else: a nil [response] stays nil; a
    call that decodes nothing leaves the target as it was; and a raw
    result is decoded only if it is the result of a decoded envelope
    whose flag is true, and then the target holds what the decoder left
    in it, also when the decoder fails. *)
Theorem do_target_written_only_by_decoder (n : Network) (c : Caller)
    (cl : Client) (name : string) (request : option Rq)
    (response : option Rs) :
  (response = None ->
   target (snd (run_call (Caller_do n c cl name request) response)) = None)
  /\ (unmarshalled
        (log (snd (run_call (Caller_do n c cl name request) response))) = []
      -> target (snd (run_call (Caller_do n c cl name request) response))
         = response)
  /\ (forall raw,
         In raw (unmarshalled
                   (log (snd (run_call (Caller_do n c cl name request)
                                response)))) ->
         exists code outer a,
           In (EfEnvelope code outer)
              (log (snd (run_call (Caller_do n c cl name request) response)))
           /\ Ok outer = true
           /\ raw = Result outer
           /\ response = Some a
           /\ target (snd (run_call (Caller_do n c cl name request) response))
              = Some (fst (json_Unmarshal raw a))).
Proof.
  destruct (do_outcome n c cl name request response)
    as [(msg & _ & Ht & _ & Hu) | (rq & res & outer & Hnet & Hdec & ->)].
  - rewrite Ht, Hu. repeat split; auto. intros raw [].
  - rewrite interpret_outcome.
    destruct (Ok outer) eqn:Hok; [destruct response as [a |] |]; cbn.
    + repeat split; try discriminate.
      intros raw [<- | []]. exists (StatusCode res), outer, a.
      repeat split; auto.
    + repeat split; auto. intros raw [].
    + repeat split; auto. intros raw [].
Qed.

End OneShotErrors.

Section OneShotFailures.
Context {UP : URLParser} {UO : Unmarshaler outerResponse}.
Context {Rq Rs : Type} {MRq : Marshaler Rq} {URs : Unmarshaler Rs}.

(** X4.  A payload that does not marshal makes [do] return the
    marshaller's error, and a URL that does not parse makes it return the
    parser's error; in both cases nothing is sent and the target is left
    as it was.  The payload is marshalled first: when both fail, the
    error is the marshaller's. *)
Theorem do_fails_before_sending (n : Network) (c : Caller) (cl : Client)
    (name : string) (request : option Rq) (response : option Rs) :
  (forall rq msg,
      request = Some rq ->
      json_Marshal rq = inl msg ->
      run_call (Caller_do n c cl name request) response
      = (Some (LibError msg),
         {| log := [EfRPC cl name]; target := response |}))
  /\ (forall msg,
         url_Parse (prefix c ++ name) = Some msg ->
         (forall rq, request = Some rq -> exists buf, json_Marshal rq = inr buf) ->
         run_call (Caller_do n c cl name request) response
         = (Some (LibError msg),
            {| log := [EfRPC cl name]; target := response |})).
Proof.
  split.
  - intros rq msg -> Hm. run_do. now rewrite Hm.
  - intros msg Hurl Hbuf. run_do. destruct request as [rq |].
    + destruct (Hbuf rq eq_refl) as [buf ->]. cbn. now rewrite Hurl.
    + cbn. now rewrite Hurl.
Qed.

(** X5.  Once the request is sent, a transport failure makes [do] return
    the transport's error, and a response body that is not an envelope
    makes it return the decoder's error, whatever the status code; in
    both cases the call is not an [*Error], nothing is decoded into the
    target and the target is left as it was. *)
Theorem do_fails_after_sending (n : Network) (c : Caller) (cl : Client)
    (name : string) (request : option Rq) (response : option Rs)
    (rq : Request) :
  sent (log (snd (run_call (Caller_do n c cl name request) response)))
  = [(cl, rq)] ->
  (forall msg,
      n cl rq = inl msg ->
      run_call (Caller_do n c cl name request) response
      = (Some (LibError msg),
         {| log := [EfRPC cl name; EfSend cl rq]; target := response |}))
  /\ (forall res outer msg,
         n cl rq = inr res ->
         json_Unmarshal (Response_Body res) zero_outerResponse
         = (outer, Some msg) ->
         run_call (Caller_do n c cl name request) response
         = (Some (LibError msg),
            {| log := [EfRPC cl name; EfSend cl rq]; target := response |})).
Proof.
  destruct (do_effects n c cl name request response) as [_ Hsent].
  rewrite Hsent. clear Hsent. intros Hrq.
  run_do.
  destruct request as [p |].
  - destruct (json_Marshal p) as [m | buf]; [discriminate |].
    destruct (url_Parse (prefix c ++ name)) as [m |]; [discriminate |].
    injection Hrq as <-. unfold Header_Set. cbn. split.
    + intros msg Hnet. now rewrite Hnet.
    + intros res outer msg Hnet Hdec. rewrite Hnet. cbn. now rewrite Hdec.
  - destruct (url_Parse (prefix c ++ name)) as [m |]; [discriminate |].
    injection Hrq as <-. unfold Header_Set. cbn. split.
    + intros msg Hnet. now rewrite Hnet.
    + intros res outer msg Hnet Hdec. rewrite Hnet. cbn. now rewrite Hdec.
Qed.

(** X6.  One invocation of [do] calls [client.Do] at most once, and it
    does not call it at all exactly when the payload does not marshal or
    the URL does not parse.  (What the HTTP client makes of the one call,
    following redirects for one, is its own affair and is not counted
    here.) *)
Theorem do_calls_client_at_most_once (n : Network) (c : Caller) (cl : Client)
    (name : string) (request : option Rq) (response : option Rs) :
  (List.length
     (sent (log (snd (run_call (Caller_do n c cl name request) response))))
   <= 1)%nat
  /\ (sent (log (snd (run_call (Caller_do n c cl name request) response)))
      = []
      <-> (exists rq msg, request = Some rq /\ json_Marshal rq = inl msg)
          \/ (exists msg, url_Parse (prefix c ++ name) = Some msg)).
Proof.
  destruct (do_effects n c cl name request response) as [_ ->].
  destruct request as [rq |].
  - destruct (json_Marshal rq) as [m | buf] eqn:Hm.
    + split; [cbn; lia |]. split; [| reflexivity].
      intros _. left. now exists rq, m.
    + destruct (url_Parse (prefix c ++ name)) as [m |] eqn:Hurl.
      * split; [cbn; lia |]. split; [| reflexivity].
        intros _. right. now exists m.
      * split; [cbn; lia |]. split; [discriminate |].
        intros [(rq' & msg & Heq & Hmsg) | (msg & Hmsg)];
          [injection Heq as <-; congruence | discriminate].
  - destruct (url_Parse (prefix c ++ name)) as [m |] eqn:Hurl.
    + split; [cbn; lia |]. split; [| reflexivity].
      intros _. right. now exists m.
    + split; [cbn; lia |]. split; [discriminate |].
      intros [(rq' & msg & Heq & Hmsg) | (msg & Hmsg)]; discriminate.
Qed.

End OneShotFailures.

Section OneShotStatus.
Context {UP : URLParser} {UO : Unmarshaler outerResponse}.
Context {Rq Rs : Type} {MRq : Marshaler Rq} {URs : Unmarshaler Rs}.

(** One invocation of [do], step by step, without the monad. *)
Lemma do_unfold (n : Network) (c : Caller) (cl : Client)
    (name : string) (request : option Rq) (response : option Rs) :
  run_call (Caller_do n c cl name request) response
  = let fail (msg : string) (l : list Effect) :=
      (Some (LibError msg), {| log := l; target := response |}) in
    let exchange (rq : Request) :=
      match url_Parse (prefix c ++ name) with
      | Some msg => fail msg [EfRPC cl name]
      | None =>
          match n cl rq with
          | inl msg => fail msg [EfRPC cl name; EfSend cl rq]
          | inr res =>
              match json_Unmarshal (Response_Body res) zero_outerResponse with
              | (_, Some msg) => fail msg [EfRPC cl name; EfSend cl rq]
              | (outer, None) =>
                  run_from (Caller_interpret res outer)
                    {| log := [EfRPC cl name; EfSend cl rq;
                               EfEnvelope (StatusCode res) outer];
                       target := response |}
              end
          end
      end in
    match request with
    | Some p =>
        match json_Marshal p with
        | inl msg => fail msg [EfRPC cl name]
        | inr buf =>
            exchange {| Method := "POST"; URL := prefix c ++ name;
                        Body := Some buf;
                        Header := [("Content-Type", "application/json")] |}
        end
    | None =>
        exchange {| Method := "GET"; URL := prefix c ++ name;
                    Body := None; Header := [] |}
    end.
Proof.
  run_do. unfold Header_Set.
  destruct request as [p |]; cbn.
  - destruct (json_Marshal p) as [m | buf]; cbn; [reflexivity |].
    destruct (url_Parse (prefix c ++ name)) as [m |]; cbn; [reflexivity |].
    match goal with
    | |- context [n cl ?r] => destruct (n cl r) as [m | res]
    end; cbn; [reflexivity |].
    destruct (json_Unmarshal (Response_Body res) zero_outerResponse)
      as [o [m |]]; reflexivity.
  - destruct (url_Parse (prefix c ++ name)) as [m |]; cbn; [reflexivity |].
    match goal with
    | |- context [n cl ?r] => destruct (n cl r) as [m | res]
    end; cbn; [reflexivity |].
    destruct (json_Unmarshal (Response_Body res) zero_outerResponse)
      as [o [m |]]; reflexivity.
Qed.

(** X7.  [do] never looks at the status code of a response to decide how
    the call went.  Against two networks that answer every request alike
    up to the status code (the same transport failure, or responses with
    the same body), the call leaves the same target, decodes the same raw
    results, and returns nil in both, the same library error in both, or
    an [*Error] with the same description in both. *)
Theorem do_status_blind (n n' : Network) (c : Caller) (cl : Client)
    (name : string) (request : option Rq) (response : option Rs) :
  (forall cl0 rq,
      match n cl0 rq, n' cl0 rq with
      | inl m, inl m' => m = m'
      | inr r, inr r' => Response_Body r = Response_Body r'
      | _, _ => False
      end) ->
  target (snd (run_call (Caller_do n c cl name request) response))
  = target (snd (run_call (Caller_do n' c cl name request) response))
  /\ unmarshalled
       (log (snd (run_call (Caller_do n c cl name request) response)))
     = unmarshalled
         (log (snd (run_call (Caller_do n' c cl name request) response)))
  /\ match fst (run_call (Caller_do n c cl name request) response),
           fst (run_call (Caller_do n' c cl name request) response) with
     | None, None => True
     | Some (LibError m), Some (LibError m') => m = m'
     | Some (ApiError e), Some (ApiError e') => Description e = Description e'
     | _, _ => False
     end.
Proof.
  intros Hsame.
  assert (Hex : forall rq,
    let run (n0 : Network) :=
      match n0 cl rq with
      | inl msg =>
          (Some (LibError msg),
           {| log := [EfRPC cl name; EfSend cl rq]; target := response |})
      | inr res =>
          match json_Unmarshal (Response_Body res) zero_outerResponse with
          | (_, Some msg) =>
              (Some (LibError msg),
               {| log := [EfRPC cl name; EfSend cl rq]; target := response |})
          | (outer, None) =>
              run_from (Caller_interpret res outer)
                {| log := [EfRPC cl name; EfSend cl rq;
                           EfEnvelope (StatusCode res) outer];
                   target := response |}
          end
      end in
    target (snd (run n)) = target (snd (run n'))
    /\ unmarshalled (log (snd (run n))) = unmarshalled (log (snd (run n')))
    /\ match fst (run n), fst (run n') with
       | None, None => True
       | Some (LibError m), Some (LibError m') => m = m'
       | Some (ApiError e), Some (ApiError e') =>
           Description e = Description e'
       | _, _ => False
       end).
  { intros rq run. unfold run. specialize (Hsame cl rq).
    destruct (n cl rq) as [m | res], (n' cl rq) as [m' | res'];
      try contradiction.
    - subst m'. cbn. auto.
    - rewrite <- Hsame.
      destruct (json_Unmarshal (Response_Body res) zero_outerResponse)
        as [outer [m |]].
      + cbn. auto.
      + rewrite !interpret_outcome.
        destruct (Ok outer); [destruct response as [a |] |]; cbn; auto.
        destruct (snd (json_Unmarshal (Result outer) a)); cbn; auto. }
  rewrite !do_unfold. cbv zeta.
  destruct request as [p |].
  - destruct (json_Marshal p) as [m | buf]; [cbn; auto |].
    destruct (url_Parse (prefix c ++ name)) as [m |]; [cbn; auto |].
    apply Hex.
  - destruct (url_Parse (prefix c ++ name)) as [m |]; [cbn; auto |].
    apply Hex.
Qed.

End OneShotStatus.

(* ===================================================================== *)
(** ** The other methods of the bot *)
(* ===================================================================== *)

Lemma append_inj (p a b : string) :
  (p ++ a = p ++ b)%string -> a = b.
Proof.
  induction p as [| ch p IH]; cbn; intros Heq; [assumption |].
  injection Heq as Heq. auto.
Qed.

Section MethodEffects.
Context {UP : URLParser} {UO : Unmarshaler outerResponse}.
Context {Rq Rs : Type} {MRq : Marshaler Rq} {URs : Unmarshaler Rs}.

Lemma Call_plain_get (n : Network) (c : Caller) (name : string)
    (response : option Rs) :
  plain_get c name
    (log (snd (run_call (Caller_Call n c name (@None Rq)) response))).
Proof.
  unfold plain_get, Caller_Call.
  destruct (do_effects n c (client c) name (@None Rq) response) as [-> ->].
  split; [reflexivity |].
  intros cl r. destruct (url_Parse (prefix c ++ name)); intros Hin.
  - destruct Hin.
  - destruct Hin as [Heq | []]. now injection Heq as <- <-.
Qed.

Lemma Call_json_post (n : Network) (c : Caller) (name : string)
    (p : Rq) (response : option Rs) :
  json_post c name (json_Marshal p)
    (log (snd (run_call (Caller_Call n c name (Some p)) response))).
Proof.
  unfold json_post, Caller_Call.
  destruct (do_effects n c (client c) name (Some p) response) as [-> ->].
  split; [reflexivity |].
  intros cl r. destruct (json_Marshal p) as [m | buf]; [intros [] |].
  destruct (url_Parse (prefix c ++ name)); intros Hin.
  - destruct Hin.
  - destruct Hin as [Heq | []]. injection Heq as <- <-.
    split; [reflexivity |]. now exists buf.
Qed.

End MethodEffects.

Section MethodResults.
Context {UP : URLParser} {UO : Unmarshaler outerResponse}.
Context {Rq Rs : Type} {MRq : Marshaler Rq} {URs : Unmarshaler Rs}.

(** The value a method reads back from its target [z]: it is not [z]
    only if it was decoded from the result of an accepted envelope; it is
    [z] after a remote failure; and after a success it is what the
    decoder made of the result. *)
Lemma call_result (n : Network) (c : Caller) (cl : Client) (name : string)
    (request : option Rq) (z : Rs) :
  (forall v,
      target (snd (run_call (Caller_do n c cl name request) (Some z)))
      = Some v ->
      v <> z ->
      exists code outer,
        In (EfEnvelope code outer)
           (log (snd (run_call (Caller_do n c cl name request) (Some z))))
        /\ Ok outer = true
        /\ v = fst (json_Unmarshal (Result outer) z))
  /\ (forall e,
         fst (run_call (Caller_do n c cl name request) (Some z))
         = Some (ApiError e) ->
         target (snd (run_call (Caller_do n c cl name request) (Some z)))
         = Some z)
  /\ (fst (run_call (Caller_do n c cl name request) (Some z)) = None ->
      exists code outer v,
        In (EfEnvelope code outer)
           (log (snd (run_call (Caller_do n c cl name request) (Some z))))
        /\ Ok outer = true
        /\ json_Unmarshal (Result outer) z = (v, None)
        /\ target (snd (run_call (Caller_do n c cl name request) (Some z)))
           = Some v).
Proof.
  destruct (do_outcome n c cl name request (Some z))
    as [(msg & He & Ht & _) | (rq & res & outer & Hnet & Hdec & ->)].
  - rewrite He, Ht. repeat split; try (intros; discriminate).
    intros v Hv Hne. congruence.
  - rewrite interpret_outcome.
    destruct (Ok outer) eqn:Hok; cbn.
    + destruct (json_Unmarshal (Result outer) z) as [v' [m |]] eqn:Hu; cbn.
      * repeat split; try (intros; discriminate).
        intros v Hv _. injection Hv as <-.
        exists (StatusCode res), outer. rewrite Hu. cbn. auto.
      * repeat split; try (intros; discriminate).
        -- intros v Hv _. injection Hv as <-.
           exists (StatusCode res), outer. rewrite Hu. cbn. auto.
        -- intros _. exists (StatusCode res), outer, v'. cbn. auto.
    + repeat split; try (intros; discriminate); auto.
      intros v Hv Hne. congruence.
Qed.

(** A call without target decodes nothing, and succeeds exactly when the
    envelope it decodes has the flag set. *)
Lemma call_without_target (n : Network) (c : Caller) (cl : Client)
    (name : string) (request : option Rq) :
  unmarshalled
    (log (snd (run_call (Caller_do n c cl name request) (@None Rs)))) = []
  /\ (fst (run_call (Caller_do n c cl name request) (@None Rs)) = None
      <-> exists code outer,
            In (EfEnvelope code outer)
               (log (snd (run_call (Caller_do n c cl name request)
                            (@None Rs))))
            /\ Ok outer = true).
Proof.
  split.
  - destruct (do_outcome n c cl name request (@None Rs))
      as [(msg & _ & _ & _ & Hu) | (rq & res & outer & Hnet & Hdec & ->)];
      [exact Hu |].
    rewrite interpret_outcome. now destruct (Ok outer).
  - split.
    + destruct (do_outcome n c cl name request (@None Rs))
        as [(msg & -> & _) | (rq & res & outer & Hnet & Hdec & ->)];
        [discriminate |].
      rewrite interpret_outcome.
      destruct (Ok outer) eqn:Hok; [| discriminate].
      intros _. exists (StatusCode res), outer. cbn. auto.
    + intros (code & outer & Hin & Hok).
      destruct (do_reaches_envelope _ _ _ _ _ _ _ _ Hin)
        as (rq & res & _ & _ & _ & ->).
      now rewrite interpret_outcome, Hok.
Qed.

End MethodResults.

Section MethodProperties.
Context {UP : URLParser} {UO : Unmarshaler outerResponse}.
Context {MSW : Marshaler (option SetWebhook)}.
Context {MAC : Marshaler (option AnswerCallbackQuery)}.
Context {MDM : Marshaler (option DeleteMessage)}.
Context {MSR : Marshaler SendRequest}.
Context {UB : Unmarshaler bool} {UWI : Unmarshaler WebhookInfo}.
Context {UMS : Unmarshaler Message} {UM : Unmarshaler User}.

(** X8.  The three methods without parameters, [GetMe], [DeleteWebhook]
    and [GetWebhookInfo], each invoke the caller once, on its standard
    client and under their own method name, and whatever they send is a
    GET of [prefix + name] without body and without header. *)
Theorem methods_without_payload_get (n : Network) (b : Bot) :
  plain_get (caller b) "getMe" (snd (Bot_GetMe n b))
  /\ plain_get (caller b) "deleteWebhook" (snd (Bot_DeleteWebhook n b))
  /\ plain_get (caller b) "getWebhookInfo" (snd (Bot_GetWebhookInfo n b)).
Proof.
  unfold Bot_GetMe, Bot_DeleteWebhook, Bot_GetWebhookInfo.
  split; [| split].
  - pose proof (Call_plain_get (Rq := NoRequest) n (caller b) "getMe"
                  (Some zero_User)) as Hp.
    destruct (run_call _ _) as [err w]. exact Hp.
  - pose proof (Call_plain_get (Rq := NoRequest) n (caller b) "deleteWebhook"
                  (Some false)) as Hp.
    destruct (run_call _ _) as [err w]. exact Hp.
  - pose proof (Call_plain_get (Rq := NoRequest) n (caller b) "getWebhookInfo"
                  (Some zero_WebhookInfo)) as Hp.
    destruct (run_call _ _) as [err w]. exact Hp.
Qed.

(** X9.  The methods that take a pointer to their parameters,
    [SetWebhook], [AnswerCallbackQuery] and [DeleteMessage], each invoke
    the caller once, on its standard client and under their own method
    name, and whatever they send is a POST of [prefix + name] with the
    JSON content type whose body is the encoding of the pointer: also for
    a nil pointer, which is a payload like any other and never turns the
    call into a GET. *)
Theorem methods_with_payload_post (n : Network) (b : Bot)
    (sw : option SetWebhook) (ac : option AnswerCallbackQuery)
    (dm : option DeleteMessage) :
  json_post (caller b) "setWebhook" (json_Marshal sw)
    (snd (Bot_SetWebhook n b sw))
  /\ json_post (caller b) "answerCallbackQuery" (json_Marshal ac)
       (snd (Bot_AnswerCallbackQuery n b ac))
  /\ json_post (caller b) "deleteMessage" (json_Marshal dm)
       (snd (Bot_DeleteMessage n b dm)).
Proof.
  unfold Bot_SetWebhook, Bot_AnswerCallbackQuery, Bot_DeleteMessage.
  split; [| split].
  - pose proof (Call_json_post (Rs := NoResponse) n (caller b) "setWebhook"
                  sw None) as Hp.
    destruct (run_call _ _) as [err w]. exact Hp.
  - pose proof (Call_json_post n (caller b) "answerCallbackQuery" ac
                  (Some false)) as Hp.
    destruct (run_call _ _) as [err w]. exact Hp.
  - pose proof (Call_json_post n (caller b) "deleteMessage" dm
                  (Some false)) as Hp.
    destruct (run_call _ _) as [err w]. exact Hp.
Qed.

(** X10.  [Send] on a nil interface panics before it does anything.  On
    a send request it invokes the caller once, under the method name its
    [Type] method gives, and whatever it sends is a POST of
    [prefix + Type] with the JSON content type whose body is the encoding
    of the request. *)
Theorem Send_routes_by_type (n : Network) (b : Bot) :
  Bot_Send n b None = None
  /\ forall r,
       exists res,
         Bot_Send n b (Some r) = Some res
         /\ json_post (caller b) (SendRequest_Type r) (json_Marshal r)
              (snd res).
Proof.
  split; [reflexivity |]. intros r. unfold Bot_Send.
  pose proof (Call_json_post n (caller b) (SendRequest_Type r) r
                (Some zero_Message)) as Hp.
  destruct (run_call _ _) as [err w]. eexists. split; [reflexivity |].
  exact Hp.
Qed.

(** X11.  The method name of a send request tells its struct: two send
    requests have the same [Type] exactly when they point to the same
    struct, and the method name is one of the ten names of the API.  So
    requests of different structs are never sent to the same URL. *)
Theorem SendRequest_Type_injective (r1 r2 : SendRequest) :
  (SendRequest_Type r1 = SendRequest_Type r2
   <-> SendRequest_struct r1 = SendRequest_struct r2)
  /\ In (SendRequest_Type r1)
        ["sendMessage"; "forwardMessage"; "sendLocation";
         "editMessageLiveLocation"; "stopMessageLiveLocation"; "sendVenue";
         "sendContact"; "editMessageText"; "editMessageCaption";
         "editMessageReplyMarkup"]
  /\ (SendRequest_struct r1 <> SendRequest_struct r2 ->
      forall c : Caller,
        (prefix c ++ SendRequest_Type r1)%string
        <> (prefix c ++ SendRequest_Type r2)%string).
Proof.
  assert (Hiff : SendRequest_Type r1 = SendRequest_Type r2
                 <-> SendRequest_struct r1 = SendRequest_struct r2).
  { destruct r1, r2; cbn; split; intros Heq;
      first [reflexivity | discriminate Heq]. }
  split; [exact Hiff | split].
  - destruct r1; cbn; tauto.
  - intros Hne c Heq. apply Hne, Hiff. eapply append_inj, Heq.
Qed.

(** X12.  The three methods that answer with a boolean,
    [DeleteWebhook], [AnswerCallbackQuery] and [DeleteMessage], answer
    true only if the call decoded an envelope whose flag is true and the
    decoder made true of its result; after a remote failure they answer
    false. *)
Theorem boolean_methods_true_only_if_decoded (n : Network) (b : Bot)
    (ac : option AnswerCallbackQuery) (dm : option DeleteMessage) :
  let decoded_true (r : (bool * option goerror) * list Effect) :=
    (fst (fst r) = true ->
     exists code outer,
       In (EfEnvelope code outer) (snd r)
       /\ Ok outer = true
       /\ fst (json_Unmarshal (Result outer) false) = true)
    /\ (forall e, snd (fst r) = Some (ApiError e) -> fst (fst r) = false) in
  decoded_true (Bot_DeleteWebhook n b)
  /\ decoded_true (Bot_AnswerCallbackQuery n b ac)
  /\ decoded_true (Bot_DeleteMessage n b dm).
Proof.
  assert (Hgen : forall (Rq : Type) (MRq : Marshaler Rq) (name : string)
                   (request : option Rq),
    let r := run_call (Caller_Call n (caller b) name request) (Some false) in
    let ok := match target (snd r) with Some ok => ok | None => false end in
    (ok = true ->
     exists code outer,
       In (EfEnvelope code outer) (log (snd r))
       /\ Ok outer = true
       /\ fst (json_Unmarshal (Result outer) false) = true)
    /\ (forall e, fst r = Some (ApiError e) -> ok = false)).
  { intros Rq MRq name request r ok. subst ok r. unfold Caller_Call.
    destruct (call_result n (caller b) (client (caller b)) name request false)
      as (Hv & He & _).
    split.
    - destruct (target _) as [v |] eqn:Ht; [| discriminate].
      intros ->. destruct (Hv true eq_refl) as (code & outer & ? & ? & ?);
        [discriminate |].
      exists code, outer. auto.
    - intros e Herr. now rewrite (He e Herr). }
  cbv zeta. unfold Bot_DeleteWebhook, Bot_AnswerCallbackQuery,
    Bot_DeleteMessage.
  split; [| split].
  - pose proof (Hgen NoRequest _ "deleteWebhook" None) as Hp.
    cbv zeta in Hp. destruct (run_call _ _) as [err w]. exact Hp.
  - pose proof (Hgen _ _ "answerCallbackQuery" (Some ac)) as Hp.
    cbv zeta in Hp. destruct (run_call _ _) as [err w]. exact Hp.
  - pose proof (Hgen _ _ "deleteMessage" (Some dm)) as Hp.
    cbv zeta in Hp. destruct (run_call _ _) as [err w]. exact Hp.
Qed.

(** X13.  [SetWebhook] never decodes the result of the remote call, and
    it returns nil exactly when the call decoded an envelope whose flag
    is true, whatever the envelope's result. *)
Theorem SetWebhook_succeeds_iff_ok (n : Network) (b : Bot)
    (sw : option SetWebhook) :
  unmarshalled (snd (Bot_SetWebhook n b sw)) = []
  /\ (fst (Bot_SetWebhook n b sw) = None
      <-> exists code outer,
            In (EfEnvelope code outer) (snd (Bot_SetWebhook n b sw))
            /\ Ok outer = true).
Proof.
  unfold Bot_SetWebhook, Caller_Call.
  pose proof (call_without_target (Rs := NoResponse) n (caller b)
                (client (caller b)) "setWebhook" (Some sw)) as Hp.
  destruct (run_call _ _) as [err w]. exact Hp.
Qed.

(** X14.  After a remote failure, [GetMe], [GetWebhookInfo] and [Send]
    return a pointer to the zero value of their result; and the result of
    [GetMe] differs from the zero user only if it was decoded from the
    result of an envelope whose flag is true. *)
Theorem struct_methods_zero_on_remote_error (n : Network) (b : Bot)
    (r : SendRequest) (e : Error) :
  (snd (fst (Bot_GetMe n b)) = Some (ApiError e) ->
   fst (fst (Bot_GetMe n b)) = zero_User)
  /\ (snd (fst (Bot_GetWebhookInfo n b)) = Some (ApiError e) ->
      fst (fst (Bot_GetWebhookInfo n b)) = zero_WebhookInfo)
  /\ (forall res,
         Bot_Send n b (Some r) = Some res ->
         snd (fst res) = Some (ApiError e) ->
         fst (fst res) = zero_Message)
  /\ (fst (fst (Bot_GetMe n b)) <> zero_User ->
      exists code outer,
        In (EfEnvelope code outer) (snd (Bot_GetMe n b))
        /\ Ok outer = true
        /\ fst (fst (Bot_GetMe n b))
           = fst (json_Unmarshal (Result outer) zero_User)).
Proof.
  unfold Bot_GetMe, Bot_GetWebhookInfo, Bot_Send, Caller_Call.
  split; [| split; [| split]].
  - destruct (call_result n (caller b) (client (caller b)) "getMe"
                (@None NoRequest) zero_User) as (_ & He & _).
    destruct (run_call _ _) as [err w]. cbn in *.
    intros Herr. now rewrite (He e Herr).
  - destruct (call_result n (caller b) (client (caller b)) "getWebhookInfo"
                (@None NoRequest) zero_WebhookInfo) as (_ & He & _).
    destruct (run_call _ _) as [err w]. cbn in *.
    intros Herr. now rewrite (He e Herr).
  - destruct (call_result n (caller b) (client (caller b))
                (SendRequest_Type r) (Some r) zero_Message) as (_ & He & _).
    destruct (run_call _ _) as [err w]. cbn in *.
    intros res Hres Herr. injection Hres as <-. cbn in *.
    now rewrite (He e Herr).
  - destruct (call_result n (caller b) (client (caller b)) "getMe"
                (@None NoRequest) zero_User) as (Hv & _ & _).
    destruct (run_call _ _) as [err w]. cbn in *.
    destruct (target w) as [v |]; [| congruence].
    intros Hne. exact (Hv v eq_refl Hne).
Qed.

End MethodProperties.

(* ===================================================================== *)
(** ** More on the poller *)
(* ===================================================================== *)

Lemma Limit_fold_advance (us : list Update) :
  forall rq,
    Limit (fold_left advance us rq) = Limit rq
    /\ AllowedUpdates (fold_left advance us rq) = AllowedUpdates rq.
Proof.
  induction us as [| u us IH]; intros rq; cbn; [auto |].
  destruct (IH (advance rq u)) as [-> ->]. unfold advance.
  destruct (Offset rq <=? Upd_ID u); auto.
Qed.

(** Identifiers below the cursor leave the request as it is. *)
Lemma fold_advance_stale (us : list Update) :
  forall rq,
    Forall (fun u => Upd_ID u < Offset rq) us ->
    fold_left advance us rq = rq.
Proof.
  induction us as [| u us IH]; intros rq Hs; cbn; [reflexivity |].
  inversion Hs as [| ? ? Hu Hus]; subst.
  unfold advance at 2.
  destruct (Z.leb_spec (Offset rq) (Upd_ID u)); [lia | auto].
Qed.

Lemma fold_advance_passes (us : list Update) :
  forall rq,
    Forall (fun u => MinInt64 <= Upd_ID u < MaxInt64) us ->
    Forall (fun u => Upd_ID u < Offset (fold_left advance us rq)) us.
Proof.
  induction us as [| u us IH]; intros rq Hb; cbn; constructor.
  - inversion Hb as [| ? ? Hu Hus]; subst.
    pose proof (Offset_fold_advance_le us (advance rq u) Hus) as Hle.
    rewrite Offset_advance in Hle by assumption. lia.
  - inversion Hb; subst. auto.
Qed.

Lemma errors_app (tr1 tr2 : list Event) :
  errors (tr1 ++ tr2) = errors tr1 ++ errors tr2.
Proof. apply flat_map_app. Qed.

Lemma failures_app (tr1 tr2 : list Event) :
  failures (tr1 ++ tr2) = failures tr1 ++ failures tr2.
Proof. apply flat_map_app. Qed.

Lemma sleeps_app (tr1 tr2 : list Event) :
  sleeps (tr1 ++ tr2) = sleeps tr1 ++ sleeps tr2.
Proof. apply flat_map_app. Qed.

(** The loop over a batch sends no error, makes no call and does not
    sleep, and leaves the limit and the allowed updates alone. *)
Lemma range_updates_quiet (upds : list (option Update)) (rq : GetUpdates) :
  errors (snd (range_updates rq upds)) = []
  /\ failures (snd (range_updates rq upds)) = []
  /\ sleeps (snd (range_updates rq upds)) = []
  /\ Limit (req (fst (range_updates rq upds))) = Limit rq
  /\ AllowedUpdates (req (fst (range_updates rq upds))) = AllowedUpdates rq.
Proof.
  assert (Hq : forall (A : Type) (f : Event -> list A) (us : list Update),
             (forall u, f (EvUpdate u) = []) ->
             flat_map f (map (fun u => EvUpdate (Some u)) us) = []).
  { intros A f us Hf. induction us as [| u us IH]; cbn;
      [reflexivity | now rewrite Hf, IH]. }
  destruct (batch_split upds) as [[us ->] | [us [rest ->]]].
  - rewrite range_updates_Some. cbn [fst snd req].
    unfold errors, failures, sleeps. rewrite !Hq by reflexivity.
    destruct (Limit_fold_advance us rq). auto.
  - rewrite range_updates_nil_entry. cbn [fst snd req].
    unfold errors, failures, sleeps.
    rewrite !flat_map_app, !Hq by reflexivity.
    destruct (Limit_fold_advance us rq). cbn. auto.
Qed.

Section PollerMore.
Context {UP : URLParser} {UO : Unmarshaler outerResponse}.
Context {MG : Marshaler GetUpdates} {UU : Unmarshaler (list (option Update))}.

(** What every turn does to the error channel and to the request. *)
Lemma turn_quiet (b : Bot) (ctx : Context) (t : Turn) (st : Poller) :
  errors (snd (turn b ctx t st)) = failures (snd (turn b ctx t st))
  /\ sleeps (snd (turn b ctx t st))
     = map (fun _ => BackoffPeriod b) (failures (snd (turn b ctx t st)))
  /\ Limit (req (fst (turn b ctx t st))) = Limit (req st)
  /\ AllowedUpdates (req (fst (turn b ctx t st))) = AllowedUpdates (req st).
Proof.
  destruct (turn_cases b ctx t st)
    as [Hd | [[Hd [upds [e Hg]]] | [Hd [upds Hg]]]].
  - rewrite turn_cancelled by assumption. cbn. auto.
  - rewrite (turn_failed b ctx t st upds e) by assumption. cbn. auto.
  - rewrite (turn_succeeded b ctx t st upds) by assumption. cbn [fst snd].
    destruct (range_updates_quiet upds (req st)) as (He & Hf & Hs & Hl & Ha).
    change (errors (EvGetUpdates (req st) upds None
                      :: snd (range_updates (req st) upds)))
      with (errors (snd (range_updates (req st) upds))).
    change (failures (EvGetUpdates (req st) upds None
                        :: snd (range_updates (req st) upds)))
      with (failures (snd (range_updates (req st) upds))).
    change (sleeps (EvGetUpdates (req st) upds None
                      :: snd (range_updates (req st) upds)))
      with (sleeps (snd (range_updates (req st) upds))).
    rewrite He, Hf, Hs. auto.
Qed.

Lemma goroutine_quiet (b : Bot) (ctx : Context) (turns : list Turn) :
  forall st,
    errors (snd (goroutine b ctx turns st))
    = failures (snd (goroutine b ctx turns st))
    /\ sleeps (snd (goroutine b ctx turns st))
       = map (fun _ => BackoffPeriod b)
             (failures (snd (goroutine b ctx turns st)))
    /\ Limit (req (fst (goroutine b ctx turns st))) = Limit (req st)
    /\ AllowedUpdates (req (fst (goroutine b ctx turns st)))
       = AllowedUpdates (req st)
    /\ Forall (fun r => Limit r = Limit (req st)
                        /\ AllowedUpdates r = AllowedUpdates (req st))
              (calls (snd (goroutine b ctx turns st))).
Proof.
  induction turns as [| t rest IH]; intros st.
  - cbn. repeat split; constructor.
  - destruct (status st) eqn:Hs.
    + rewrite goroutine_cons by assumption. cbn [fst snd].
      destruct (turn_quiet b ctx t st) as (He & Hsl & Hl & Ha).
      destruct (turn_inv b ctx t st) as (_ & Hc & _).
      destruct (IH (fst (turn b ctx t st))) as (He' & Hsl' & Hl' & Ha' & Hc').
      rewrite errors_app, failures_app, sleeps_app, calls_app, map_app.
      repeat split; try congruence.
      apply Forall_app. split.
      * eapply Forall_impl; [| exact Hc]. now intros r <-.
      * eapply Forall_impl; [| exact Hc']. intros r [? ?].
        split; congruence.
    + rewrite goroutine_not_running by congruence. cbn.
      repeat split; constructor.
    + rewrite goroutine_not_running by congruence. cbn.
      repeat split; constructor.
Qed.

End PollerMore.

Section PollerExtras.
Context {UP : URLParser} {UO : Unmarshaler outerResponse}.
Context {MG : Marshaler GetUpdates} {UU : Unmarshaler (list (option Update))}.

(** X15.  [GetUpdates] returns a batch without error only as the decoding
    of the result of an accepted envelope: the poll request marshalled,
    the network answered the POST of it to [prefix + "getUpdates"] on the
    long-poll client, the body decoded to an envelope whose flag is true,
    and the batch is what the decoder made of the envelope's result,
    starting from a nil slice.  After a remote failure the slice returned
    is nil. *)
Theorem GetUpdates_decodes_accepted_envelope (n : Network) (b : Bot)
    (rq : GetUpdates) :
  (forall upds,
      Bot_GetUpdates n b rq = (upds, None) ->
      exists buf res outer,
        json_Marshal rq = inr buf
        /\ n (pollClient (caller b))
             {| Method := "POST";
                URL := (prefix (caller b) ++ "getUpdates")%string;
                Body := Some buf;
                Header := [("Content-Type", "application/json")] |}
           = inr res
        /\ json_Unmarshal (Response_Body res) zero_outerResponse
           = (outer, None)
        /\ Ok outer = true
        /\ json_Unmarshal (Result outer) [] = (upds, None))
  /\ (forall e,
         snd (Bot_GetUpdates n b rq) = Some (ApiError e) ->
         fst (Bot_GetUpdates n b rq) = []).
Proof.
  unfold Bot_GetUpdates, Caller_Poll. rewrite do_unfold. cbv zeta.
  destruct (json_Marshal rq) as [m | buf]; [cbn; split; intros; discriminate |].
  destruct (url_Parse (prefix (caller b) ++ "getUpdates"))
    as [m |]; [cbn; split; intros; discriminate |].
  destruct (n (pollClient (caller b)) _) as [m | res] eqn:Hnet;
    [cbn; split; intros; discriminate |].
  destruct (json_Unmarshal (Response_Body res) zero_outerResponse)
    as [outer [m |]] eqn:Hdec; [cbn; split; intros; discriminate |].
  rewrite interpret_outcome.
  destruct (Ok outer) eqn:Hok; cbn.
  - destruct (json_Unmarshal (Result outer) []) as [v [m |]] eqn:Hu; cbn;
      split; intros; try discriminate.
    exists buf, res, outer.
    match goal with H : (_, _) = (_, _) |- _ => injection H as <- end.
    auto.
  - split; intros; [discriminate | reflexivity].
Qed.

(** Without cancellation every turn makes exactly one call. *)
Lemma turn_calls_background (b : Bot) (t : Turn) (st : Poller) :
  List.length (calls (snd (turn b Background t st))) = 1%nat.
Proof.
  destruct (turn_cases b Background t st)
    as [Hd | [[Hd [upds [e Hg]]] | [Hd [upds Hg]]]].
  - discriminate Hd.
  - now rewrite (turn_failed b Background t st upds e).
  - rewrite (turn_succeeded b Background t st upds) by assumption.
    cbn [snd].
    change (calls (EvGetUpdates (req st) upds None
                     :: snd (range_updates (req st) upds)))
      with (req st :: calls (snd (range_updates (req st) upds))).
    destruct (range_updates_emitted upds (req st))
      as (_ & _ & _ & -> & _). reflexivity.
Qed.

(** Under the background context a run ends panicked only on a nil entry
    of a returned batch, and a run still in its loop has made one call
    per turn. *)
Lemma goroutine_background (b : Bot) (turns : list Turn) :
  forall st,
    status st = Running ->
    (status (fst (goroutine b Background turns st)) = Panicked ->
     In None (returned (snd (goroutine b Background turns st))))
    /\ (status (fst (goroutine b Background turns st)) = Running ->
        List.length (calls (snd (goroutine b Background turns st)))
        = List.length turns).
Proof.
  induction turns as [| t rest IH]; intros st Hs.
  - cbn. split; [congruence | reflexivity].
  - rewrite goroutine_cons by assumption. cbn [fst snd].
    rewrite returned_app, calls_app, length_app, turn_calls_background.
    destruct (turn_emitted b Background t st Hs)
      as (_ & _ & Hpan & Hstop & _).
    destruct (status (fst (turn b Background t st))) eqn:E.
    + destruct (IH _ E) as [IHp IHr]. split.
      * intros Hp. apply in_or_app. right. auto.
      * intros Hr. rewrite (IHr Hr). reflexivity.
    + specialize (Hstop eq_refl). discriminate Hstop.
    + rewrite goroutine_not_running by congruence. cbn [fst snd].
      rewrite app_nil_r. split; [auto | congruence].
Qed.

(** X16.  A session started with a nil context or with the background
    context is never stopped by cancellation: it never reaches the
    stopped state and never closes its channels.  It leaves its loop only
    by the panic on a nil entry of a returned batch; as long as no
    returned batch holds a nil entry it is still in its loop after any
    number of turns, and has made one call in each of them. *)
Theorem background_context_runs_until_panic (b : Bot) (ctx : option Context)
    (rq : GetUpdates) (turns : list Turn) :
  ctx = None \/ ctx = Some Background ->
  status (fst (Bot_PollUpdates b ctx rq turns)) <> Stopped
  /\ filter is_close (snd (Bot_PollUpdates b ctx rq turns)) = []
  /\ (status (fst (Bot_PollUpdates b ctx rq turns)) = Panicked ->
      In None (returned (snd (Bot_PollUpdates b ctx rq turns))))
  /\ (Forall (fun upd => upd <> None)
             (returned (snd (Bot_PollUpdates b ctx rq turns))) ->
      status (fst (Bot_PollUpdates b ctx rq turns)) = Running
      /\ List.length (calls (snd (Bot_PollUpdates b ctx rq turns)))
         = List.length turns).
Proof.
  intros Hctx. unfold Bot_PollUpdates.
  assert (Hbg : match ctx with None => Background | Some c => c end
                = Background) by (now destruct Hctx as [-> | ->]).
  rewrite Hbg.
  match goal with
  | |- context [goroutine b Background turns ?s] =>
      destruct (goroutine_closes b Background turns s eq_refl) as [Hst Hcl];
      destruct (goroutine_background b turns s eq_refl) as [Hpan Hrun];
      set (s0 := s) in *
  end.
  assert (Hns : status (fst (goroutine b Background turns s0)) <> Stopped).
  { intros Hstop. destruct (Hst Hstop) as (tr0 & _ & _ & Hex).
    apply Exists_exists in Hex as (t & _ & Hd). discriminate Hd. }
  split; [exact Hns |]. split; [exact (Hcl Hns) |]. split; [exact Hpan |].
  intros Hnonnil.
  assert (Hr : status (fst (goroutine b Background turns s0)) = Running).
  { destruct (status (fst (goroutine b Background turns s0))) eqn:E.
    - reflexivity.
    - congruence.
    - rewrite Forall_forall in Hnonnil.
      now destruct (Hnonnil None (Hpan eq_refl)). }
  split; [exact Hr | exact (Hrun Hr)].
Qed.

(** X17.  The errors a session sends on the error channel are the errors
    its failed calls returned, each once and in the order of the calls,
    and the session sleeps once per failed call, each time for the bot's
    backoff period. *)
Theorem errors_emitted_in_order (b : Bot) (ctx : option Context)
    (rq : GetUpdates) (turns : list Turn) :
  errors (snd (Bot_PollUpdates b ctx rq turns))
  = failures (snd (Bot_PollUpdates b ctx rq turns))
  /\ sleeps (snd (Bot_PollUpdates b ctx rq turns))
     = map (fun _ => BackoffPeriod b)
           (failures (snd (Bot_PollUpdates b ctx rq turns))).
Proof.
  unfold Bot_PollUpdates.
  match goal with
  | |- context [goroutine b ?c turns ?s] =>
      destruct (goroutine_quiet b c turns s) as (He & Hs & _)
  end.
  auto.
Qed.

(** X18.  A session writes no field of the request but the timeout, once
    at the start, and the offset: every call is made with the limit and
    the allowed updates of the request handed to [PollUpdates], and the
    first call with its offset. *)
Theorem request_fields_preserved (b : Bot) (ctx : option Context)
    (rq : GetUpdates) (turns : list Turn) :
  Forall (fun r => Limit r = Limit rq
                   /\ AllowedUpdates r = AllowedUpdates rq)
         (calls (snd (Bot_PollUpdates b ctx rq turns)))
  /\ Limit (req (fst (Bot_PollUpdates b ctx rq turns))) = Limit rq
  /\ AllowedUpdates (req (fst (Bot_PollUpdates b ctx rq turns)))
     = AllowedUpdates rq
  /\ match calls (snd (Bot_PollUpdates b ctx rq turns)) with
     | [] => True
     | r :: _ => Offset r = Offset rq
     end.
Proof.
  unfold Bot_PollUpdates.
  match goal with
  | |- context [goroutine b ?c turns ?s] =>
      destruct (goroutine_quiet b c turns s) as (_ & _ & Hl & Ha & Hc);
      set (c0 := c) in *; set (s0 := s) in *
  end.
  assert (Hrq : Limit (req s0) = Limit rq
                /\ AllowedUpdates (req s0) = AllowedUpdates rq
                /\ Offset (req s0) = Offset rq).
  { unfold s0. cbn. destruct (Timeout rq <=? 0); auto. }
  destruct Hrq as (Hl0 & Ha0 & Ho0).
  repeat split; try congruence.
  - eapply Forall_impl; [| exact Hc]. intros r [? ?]. split; congruence.
  - destruct turns as [| t rest]; [exact I |].
    rewrite goroutine_cons by reflexivity. cbn [snd].
    rewrite calls_app.
    destruct (turn_cases b c0 t s0)
      as [Hd | [[Hd [upds [e Hg]]] | [Hd [upds Hg]]]].
    + rewrite turn_cancelled by assumption. cbn [fst snd].
      rewrite goroutine_not_running by (cbn; congruence). exact I.
    + rewrite (turn_failed b c0 t s0 upds e) by assumption. exact Ho0.
    + rewrite (turn_succeeded b c0 t s0 upds) by assumption. exact Ho0.
Qed.

End PollerExtras.

Section BatchExtras.
Context {UP : URLParser} {UO : Unmarshaler outerResponse}.
Context {MG : Marshaler GetUpdates} {UU : Unmarshaler (list (option Update))}.

(** X19.  After a turn whose call returned a batch of updates with
    identifiers below the largest [int64], the cursor is above every
    identifier of the batch: the next call asks for none of them again. *)
Theorem cursor_passes_batch (b : Bot) (ctx : Context) (t : Turn)
    (st : Poller) (us : list Update) :
  done_ready ctx t = false ->
  Bot_GetUpdates (net t) b (req st) = (map Some us, None) ->
  Forall (fun u => MinInt64 <= Upd_ID u < MaxInt64) us ->
  Forall (fun u => Upd_ID u < Offset (req (fst (turn b ctx t st)))) us.
Proof.
  intros Hd Hg Hb.
  rewrite (turn_succeeded b ctx t st (map Some us)) by assumption.
  rewrite range_updates_Some. cbn [fst req].
  now apply fold_advance_passes.
Qed.

(** X20.  A batch with a nil entry: the updates before the entry are
    sent and move the cursor, the nil entry itself is sent, and the
    goroutine panics on it.  The entries after it are never sent, no
    channel is closed, and no further call is made, whatever follows. *)
Theorem nil_entry_panics (b : Bot) (ctx : Context) (t : Turn)
    (more : list Turn) (st : Poller) (us : list Update)
    (rest : list (option Update)) :
  status st = Running ->
  done_ready ctx t = false ->
  Bot_GetUpdates (net t) b (req st) = (map Some us ++ None :: rest, None) ->
  goroutine b ctx (t :: more) st
  = ({| req := fold_left advance us (req st); status := Panicked |},
     EvGetUpdates (req st) (map Some us ++ None :: rest) None
       :: map (fun u => EvUpdate (Some u)) us ++ [EvUpdate None; EvPanic]).
Proof.
  intros Hs Hd Hg.
  rewrite goroutine_cons by assumption.
  rewrite (turn_succeeded b ctx t st _ Hd Hg).
  rewrite range_updates_nil_entry. cbn [fst snd].
  rewrite goroutine_not_running by (cbn; congruence).
  cbn [fst snd]. now rewrite app_nil_r.
Qed.

(** X21.  A batch of updates whose identifiers are all below the cursor
    is sent on the update channel like any other, and leaves the poller
    exactly as it was: stale updates are delivered again and the cursor
    does not move. *)
Theorem stale_batch_leaves_cursor (b : Bot) (ctx : Context) (t : Turn)
    (st : Poller) (us : list Update) :
  status st = Running ->
  done_ready ctx t = false ->
  Bot_GetUpdates (net t) b (req st) = (map Some us, None) ->
  Forall (fun u => Upd_ID u < Offset (req st)) us ->
  turn b ctx t st
  = (st, EvGetUpdates (req st) (map Some us) None
           :: map (fun u => EvUpdate (Some u)) us).
Proof.
  intros Hs Hd Hg Hstale.
  rewrite (turn_succeeded b ctx t st (map Some us)) by assumption.
  rewrite range_updates_Some. cbn [fst snd].
  rewrite fold_advance_stale by assumption.
  destruct st as [rq s]. cbn in *. now subst s.
Qed.

End BatchExtras.

(* ===================================================================== *)
(** ** The two clients, and the kind of an update *)
(* ===================================================================== *)

Section TwoClients.
Context {UP : URLParser} {UO : Unmarshaler outerResponse}.
Context {Rq Rs : Type} {MRq : Marshaler Rq} {URs : Unmarshaler Rs}.

(** X22.  [Call] and [Poll] differ in the client they send on and in
    nothing else: [Call] sends on the caller's standard client and [Poll]
    on its long-poll client (10 seconds and 5 minutes of timeout in a
    caller made by [NewCaller]), they send the same requests, and against
    a network whose answers do not depend on the client they return the
    same error and leave the same target. *)
Theorem Call_Poll_differ_in_client (n : Network) (c : Caller)
    (name : string) (request : option Rq) (response : option Rs) :
  map snd (sent (log (snd (run_call (Caller_Call n c name request) response))))
  = map snd (sent (log (snd (run_call (Caller_Poll n c name request)
                               response))))
  /\ Forall (fun s => fst s = client c)
       (sent (log (snd (run_call (Caller_Call n c name request) response))))
  /\ Forall (fun s => fst s = pollClient c)
       (sent (log (snd (run_call (Caller_Poll n c name request) response))))
  /\ (forall endpoint token,
         Client_Timeout (client (NewCaller endpoint token)) = 10 * Second
         /\ Client_Timeout (pollClient (NewCaller endpoint token))
            = 300 * Second)
  /\ ((forall rq, n (client c) rq = n (pollClient c) rq) ->
      fst (run_call (Caller_Call n c name request) response)
      = fst (run_call (Caller_Poll n c name request) response)
      /\ target (snd (run_call (Caller_Call n c name request) response))
         = target (snd (run_call (Caller_Poll n c name request) response))).
Proof.
  unfold Caller_Call, Caller_Poll.
  destruct (do_effects n c (client c) name request response) as [_ Hs1].
  destruct (do_effects n c (pollClient c) name request response) as [_ Hs2].
  split; [| split; [| split; [| split]]].
  - rewrite Hs1, Hs2.
    destruct request as [p |];
      [destruct (json_Marshal p) |];
      destruct (url_Parse (prefix c ++ name)); reflexivity.
  - rewrite Hs1.
    destruct request as [p |];
      [destruct (json_Marshal p) |];
      destruct (url_Parse (prefix c ++ name)); repeat constructor.
  - rewrite Hs2.
    destruct request as [p |];
      [destruct (json_Marshal p) |];
      destruct (url_Parse (prefix c ++ name)); repeat constructor.
  - intros endpoint token. split; reflexivity.
  - intros Hn. rewrite !do_unfold. cbv zeta.
    assert (Hex : forall rq,
      let run (cl : Client) :=
        match n cl rq with
        | inl msg =>
            (Some (LibError msg),
             {| log := [EfRPC cl name; EfSend cl rq]; target := response |})
        | inr res =>
            match json_Unmarshal (Response_Body res) zero_outerResponse with
            | (_, Some msg) =>
                (Some (LibError msg),
                 {| log := [EfRPC cl name; EfSend cl rq];
                    target := response |})
            | (outer, None) =>
                run_from (Caller_interpret res outer)
                  {| log := [EfRPC cl name; EfSend cl rq;
                             EfEnvelope (StatusCode res) outer];
                     target := response |}
            end
        end in
      fst (run (client c)) = fst (run (pollClient c))
      /\ target (snd (run (client c))) = target (snd (run (pollClient c)))).
    { intros rq run. unfold run. rewrite <- (Hn rq).
      destruct (n (client c) rq) as [m | res]; [cbn; auto |].
      destruct (json_Unmarshal (Response_Body res) zero_outerResponse)
        as [outer [m |]]; [cbn; auto |].
      rewrite !interpret_outcome.
      destruct (Ok outer); [destruct response as [a |] |]; cbn; auto. }
    destruct request as [p |].
    + destruct (json_Marshal p) as [m | buf]; [cbn; auto |].
      destruct (url_Parse (prefix c ++ name)) as [m |]; [cbn; auto |].
      apply Hex.
    + destruct (url_Parse (prefix c ++ name)) as [m |]; [cbn; auto |].
      apply Hex.
Qed.

End TwoClients.

(** X23.  [Update.Type] is the empty string exactly when no slot of the
    update is populated; and in an update that keeps to the rule of the
    package, at most one slot populated, a slot is populated exactly when
    [Type] is its kind. *)
Theorem Update_Type_identifies_slot (u : Update) :
  (Update_Type u = "" <-> Forall (fun s => snd s = false) (kind_slots u))
  /\ ((List.length (filter snd (kind_slots u)) <= 1)%nat ->
      forall k, In (k, true) (kind_slots u) <-> (Update_Type u = k /\ k <> "")).
Proof.
  destruct u as [id m em cp ecp iq cir cq].
  unfold Update_Type, kind_slots; cbn [Upd_Message Upd_EditedMessage
    Upd_ChannelPost Upd_EditedChannelPost Upd_InlineQuery
    Upd_ChosenInlineResult Upd_CallbackQuery].
  unfold MessageUpdate, EditedMessageUpdate, ChannelPostUpdate,
    EditedChannelPostUpdate, InlineQueryUpdate, ChosenInlineResultUpdate,
    CallbackQueryUpdate.
  split.
  - rewrite !Forall_cons_iff, Forall_nil_iff.
    destruct m, em, cp, ecp, iq, cir, cq; cbn; intuition congruence.
  - destruct m, em, cp, ecp, iq, cir, cq; cbn; intros Hone k;
      try (exfalso; lia);
      (split;
       [intros Hin; intuition congruence
       | intros [<- Hk];
         first [congruence | repeat (first [now left | right])]]).
Qed.

(* ===================================================================== *)
(** ** The further properties at work in the small world *)
(* ===================================================================== *)

(** A remote failure without description: the message is not empty. *)
Lemma do_api_error_iff_witness :
  Error_Error (ApiError {| HTTPCode := 401; Description := "undefined error" |})
  <> ""
  /\ target (snd (run_call
       (SimAPI.do (Sim.answers 401 [Byte.x00]) (caller Sim.bot)
          (pollClient (caller Sim.bot)) "getUpdates" (Some Sim.request0))
       (Some [])))
     = Some []
  /\ unmarshalled (log (snd (run_call
       (SimAPI.do (Sim.answers 401 [Byte.x00]) (caller Sim.bot)
          (pollClient (caller Sim.bot)) "getUpdates" (Some Sim.request0))
       (Some []))))
     = [].
Proof.
  exact (proj2
    (@do_api_error_iff Sim.parser Sim.envelope GetUpdates
       (list (option Update)) Sim.request Sim.batch
       (Sim.answers 401 [Byte.x00]) (caller Sim.bot)
       (pollClient (caller Sim.bot)) "getUpdates" (Some Sim.request0)
       (Some []) {| HTTPCode := 401; Description := "undefined error" |})
    eq_refl).
Defined.

(** An accepted envelope with a batch of one update: the call succeeds. *)
Lemma do_success_iff_witness :
  fst (run_call
         (SimAPI.do (Sim.answers 200 [Byte.x01; Byte.x05]) (caller Sim.bot)
            (pollClient (caller Sim.bot)) "getUpdates" (Some Sim.request0))
         (Some []))
  = None.
Proof.
  apply (proj2
    (@do_success_iff Sim.parser Sim.envelope GetUpdates
       (list (option Update)) Sim.request Sim.batch
       (Sim.answers 200 [Byte.x01; Byte.x05]) (caller Sim.bot)
       (pollClient (caller Sim.bot)) "getUpdates" (Some Sim.request0)
       (Some []))).
  exists 200, {| Ok := true; Result := [Byte.x05]; Outer_Description := "" |}.
  split; [| split]; [| reflexivity | reflexivity].
  vm_compute. right. right. left. reflexivity.
Defined.

(** The network is down: the target is left as it was. *)
Lemma do_target_written_only_by_decoder_witness :
  target (snd (run_call
     (SimAPI.do Sim.down (caller Sim.bot) (pollClient (caller Sim.bot))
        "getUpdates" (Some Sim.request0))
     (Some [Some (Sim.update 1)])))
  = Some [Some (Sim.update 1)].
Proof.
  apply (proj1 (proj2
    (@do_target_written_only_by_decoder Sim.parser Sim.envelope GetUpdates
       (list (option Update)) Sim.request Sim.batch Sim.down (caller Sim.bot)
       (pollClient (caller Sim.bot)) "getUpdates" (Some Sim.request0)
       (Some [Some (Sim.update 1)])))).
  reflexivity.
Defined.

(** A method name with a line feed: the URL does not parse and nothing
    is sent. *)
Lemma do_fails_before_sending_witness :
  run_call
    (SimAPI.do (Sim.answers 200 [Byte.x01]) (caller Sim.bot)
       (pollClient (caller Sim.bot)) (String (Ascii.ascii_of_nat 10) "get")
       (Some Sim.request0))
    (Some [])
  = (Some (LibError "net/url: invalid control character in URL"),
     {| log := [EfRPC (pollClient (caller Sim.bot))
                  (String (Ascii.ascii_of_nat 10) "get")];
        target := Some [] |}).
Proof.
  apply (proj2
    (@do_fails_before_sending Sim.parser Sim.envelope GetUpdates
       (list (option Update)) Sim.request Sim.batch
       (Sim.answers 200 [Byte.x01]) (caller Sim.bot)
       (pollClient (caller Sim.bot)) (String (Ascii.ascii_of_nat 10) "get")
       (Some Sim.request0) (Some []))).
  - reflexivity.
  - intros rq Heq. injection Heq as <-. now exists [Byte.x00].
Defined.

(** A response that is not JSON, with status 502: a decoder's error. *)
Lemma do_fails_after_sending_witness :
  run_call
    (SimAPI.do (Sim.answers 502 [Byte.x3c]) (caller Sim.bot)
       (pollClient (caller Sim.bot)) "getUpdates" (Some Sim.request0))
    (Some [])
  = (Some (LibError "invalid character looking for beginning of value"),
     {| log := [EfRPC (pollClient (caller Sim.bot)) "getUpdates";
                EfSend (pollClient (caller Sim.bot))
                  {| Method := "POST";
                     URL := "https://api.telegram.org/botTOKEN/getUpdates";
                     Body := Some [Byte.x00];
                     Header := [("Content-Type", "application/json")] |}];
        target := Some [] |}).
Proof.
  apply (proj2
    (@do_fails_after_sending Sim.parser Sim.envelope GetUpdates
       (list (option Update)) Sim.request Sim.batch
       (Sim.answers 502 [Byte.x3c]) (caller Sim.bot)
       (pollClient (caller Sim.bot)) "getUpdates" (Some Sim.request0)
       (Some [])
       {| Method := "POST";
          URL := "https://api.telegram.org/botTOKEN/getUpdates";
          Body := Some [Byte.x00];
          Header := [("Content-Type", "application/json")] |}
       eq_refl)
    {| StatusCode := 502; Response_Body := [Byte.x3c] |}
    zero_outerResponse
    "invalid character looking for beginning of value").
  - reflexivity.
  - reflexivity.
Defined.

(** A URL that does not parse: [client.Do] is not called. *)
Lemma do_calls_client_at_most_once_witness :
  sent (log (snd (run_call
     (SimAPI.do (Sim.answers 200 [Byte.x01]) (caller Sim.bot)
        (pollClient (caller Sim.bot)) (String (Ascii.ascii_of_nat 10) "get")
        (Some Sim.request0))
     (Some []))))
  = [].
Proof.
  apply (proj2 (proj2
    (@do_calls_client_at_most_once Sim.parser Sim.envelope GetUpdates
       (list (option Update)) Sim.request Sim.batch
       (Sim.answers 200 [Byte.x01]) (caller Sim.bot)
       (pollClient (caller Sim.bot)) (String (Ascii.ascii_of_nat 10) "get")
       (Some Sim.request0) (Some [])))).
  right. now exists "net/url: invalid control character in URL".
Defined.

(** The same accepted body under status 200 and under status 500. *)
Lemma do_status_blind_witness :
  target (snd (run_call
     (SimAPI.do (Sim.answers 200 [Byte.x01; Byte.x05]) (caller Sim.bot)
        (pollClient (caller Sim.bot)) "getUpdates" (Some Sim.request0))
     (Some [])))
  = target (snd (run_call
     (SimAPI.do (Sim.answers 500 [Byte.x01; Byte.x05]) (caller Sim.bot)
        (pollClient (caller Sim.bot)) "getUpdates" (Some Sim.request0))
     (Some []))).
Proof.
  refine (proj1
    (@do_status_blind Sim.parser Sim.envelope GetUpdates
       (list (option Update)) Sim.request Sim.batch
       (Sim.answers 200 [Byte.x01; Byte.x05])
       (Sim.answers 500 [Byte.x01; Byte.x05]) (caller Sim.bot)
       (pollClient (caller Sim.bot)) "getUpdates" (Some Sim.request0)
       (Some []) _)).
  intros cl0 rq. reflexivity.
Defined.

(** A text message and a forwarded message go to different URLs. *)
Lemma SendRequest_Type_injective_witness :
  (prefix (caller Sim.bot) ++ SendRequest_Type (SimAPI.text "hello"))%string
  <> (prefix (caller Sim.bot) ++ SendRequest_Type (SR_ForwardMessage None))%string.
Proof.
  refine (proj2 (proj2
    (SendRequest_Type_injective (SimAPI.text "hello") (SR_ForwardMessage None)))
    _ (caller Sim.bot)).
  discriminate.
Defined.

(** The remote answers True to [deleteWebhook]. *)
Lemma boolean_methods_true_only_if_decoded_witness :
  exists code outer,
    In (EfEnvelope code outer)
       (snd (SimAPI.deleteWebhook (Sim.answers 200 [Byte.x01; Byte.x01])
               Sim.bot))
    /\ Ok outer = true
    /\ fst (SimAPI.flag (Result outer) false) = true.
Proof.
  exact (proj1 (proj1
    (@boolean_methods_true_only_if_decoded Sim.parser Sim.envelope
       SimAPI.pointer SimAPI.pointer SimAPI.flag
       (Sim.answers 200 [Byte.x01; Byte.x01]) Sim.bot None None))
    eq_refl).
Defined.

(** [SetWebhook] with a nil pointer, accepted by the remote. *)
Lemma SetWebhook_succeeds_iff_ok_witness :
  exists code outer,
    In (EfEnvelope code outer)
       (snd (SimAPI.setWebhook (Sim.answers 200 [Byte.x01; Byte.x01])
               Sim.bot None))
    /\ Ok outer = true.
Proof.
  exact (proj1 (proj2
    (@SetWebhook_succeeds_iff_ok Sim.parser Sim.envelope SimAPI.pointer
       (Sim.answers 200 [Byte.x01; Byte.x01]) Sim.bot None))
    eq_refl).
Defined.

(** [GetMe] refused by the remote: the user returned is the zero user. *)
Lemma struct_methods_zero_on_remote_error_witness :
  fst (fst (SimAPI.getMe (Sim.answers 401 [Byte.x02; Byte.x09]) Sim.bot))
  = zero_User.
Proof.
  exact (proj1
    (@struct_methods_zero_on_remote_error Sim.parser Sim.envelope SimAPI.send
       SimAPI.info SimAPI.message Sim.user
       (Sim.answers 401 [Byte.x02; Byte.x09]) Sim.bot (SimAPI.text "hello")
       {| HTTPCode := 401; Description := "Unauthorized" |})
    eq_refl).
Defined.

(** [GetUpdates] refused by the remote: the slice returned is nil. *)
Lemma GetUpdates_decodes_accepted_envelope_witness :
  fst (Sim.getUpdates (Sim.answers 401 [Byte.x02; Byte.x05]) Sim.bot
         Sim.request0)
  = [].
Proof.
  exact (proj2
    (@GetUpdates_decodes_accepted_envelope Sim.parser Sim.envelope
       Sim.request Sim.batch (Sim.answers 401 [Byte.x02; Byte.x05]) Sim.bot
       Sim.request0)
    {| HTTPCode := 401; Description := "Unauthorized" |} eq_refl).
Defined.

(** A nil context: the session goes on although the world reports a
    closed channel, and has made a call in each of its two turns. *)
Lemma background_context_runs_until_panic_witness :
  status (fst (Sim.poll Sim.bot None Sim.request0
                 [Sim.turn_cancelled; Sim.turn_5_7]))
  = Running
  /\ List.length (calls (snd (Sim.poll Sim.bot None Sim.request0
                                [Sim.turn_cancelled; Sim.turn_5_7])))
     = List.length [Sim.turn_cancelled; Sim.turn_5_7].
Proof.
  refine (proj2 (proj2 (proj2
    (@background_context_runs_until_panic Sim.parser Sim.envelope
       Sim.request Sim.batch Sim.bot None Sim.request0
       [Sim.turn_cancelled; Sim.turn_5_7] (or_introl eq_refl)))) _).
  match goal with
  | |- Forall _ ?tr =>
      let v := eval vm_compute in tr in
      change (Forall (fun upd : option Update => upd <> None) v)
  end.
  repeat (apply Forall_cons; [discriminate |]). apply Forall_nil.
Defined.

(** After the batch 5, 7 the cursor is above 5 and 7. *)
Lemma cursor_passes_batch_witness :
  Forall (fun u => Upd_ID u
                   < Offset (req (fst (Sim.step Sim.bot Background
                                         Sim.turn_5_7 (Sim.running 0)))))
         [Sim.update 5; Sim.update 7].
Proof.
  refine (@cursor_passes_batch Sim.parser Sim.envelope Sim.request Sim.batch
            Sim.bot Background Sim.turn_5_7 (Sim.running 0)
            [Sim.update 5; Sim.update 7] eq_refl eq_refl _).
  repeat constructor; cbn; unfold MinInt64, MaxInt64; lia.
Defined.

(** The batch 5, null, 7: update 7 is never sent. *)
Lemma nil_entry_panics_witness :
  Sim.run Sim.bot Background [Sim.turn_null; Sim.turn_5_7] (Sim.running 0)
  = ({| req := fold_left advance [Sim.update 5] (req (Sim.running 0));
        status := Panicked |},
     EvGetUpdates (req (Sim.running 0))
       (map Some [Sim.update 5] ++ None :: [Some (Sim.update 7)]) None
       :: map (fun u => EvUpdate (Some u)) [Sim.update 5]
          ++ [EvUpdate None; EvPanic]).
Proof.
  exact (@nil_entry_panics Sim.parser Sim.envelope Sim.request Sim.batch
           Sim.bot Background Sim.turn_null [Sim.turn_5_7] (Sim.running 0)
           [Sim.update 5] [Some (Sim.update 7)] eq_refl eq_refl eq_refl).
Defined.

(** The batch 3, 4 met with cursor 8. *)
Lemma stale_batch_leaves_cursor_witness :
  Sim.step Sim.bot Background SimAPI.turn_3_4 (Sim.running 8)
  = (Sim.running 8,
     EvGetUpdates (req (Sim.running 8))
       (map Some [Sim.update 3; Sim.update 4]) None
       :: map (fun u => EvUpdate (Some u)) [Sim.update 3; Sim.update 4]).
Proof.
  refine (@stale_batch_leaves_cursor Sim.parser Sim.envelope Sim.request
            Sim.batch Sim.bot Background SimAPI.turn_3_4 (Sim.running 8)
            [Sim.update 3; Sim.update 4] eq_refl eq_refl eq_refl _).
  repeat constructor.
Defined.

(** The same call through [Call] and through [Poll]. *)
Lemma Call_Poll_differ_in_client_witness :
  fst (run_call
         (@Caller_Call Sim.parser Sim.envelope GetUpdates
            (list (option Update)) Sim.request Sim.batch
            (Sim.answers 200 [Byte.x01; Byte.x05]) (caller Sim.bot)
            "getUpdates" (Some Sim.request0))
         (Some []))
  = fst (run_call
           (@Caller_Poll Sim.parser Sim.envelope GetUpdates
              (list (option Update)) Sim.request Sim.batch
              (Sim.answers 200 [Byte.x01; Byte.x05]) (caller Sim.bot)
              "getUpdates" (Some Sim.request0))
           (Some [])).
Proof.
  refine (proj1 (proj2 (proj2 (proj2 (proj2
    (@Call_Poll_differ_in_client Sim.parser Sim.envelope GetUpdates
       (list (option Update)) Sim.request Sim.batch
       (Sim.answers 200 [Byte.x01; Byte.x05]) (caller Sim.bot)
       "getUpdates" (Some Sim.request0) (Some []))))) _)).
  intros rq. reflexivity.
Defined.

(** An update with a message only: its message slot is the populated
    one. *)
Lemma Update_Type_identifies_slot_witness :
  In ("message", true) (kind_slots (Sim.update 5)).
Proof.
  refine (proj2 (proj2 (Update_Type_identifies_slot (Sim.update 5)) _
                   "message") _).
  - cbn. lia.
  - split; [reflexivity | discriminate].
Defined.
